(** * PortID JavaScript SDK: a shallow embedding and its verified properties

    The development follows the two source files of the SDK:

    - [encryption.js]: [generateRecoveryKey], [hashPassword], [encryptData]
      and [decryptData];
    - the SDK class (constructor, [_request], [signUp], [login], [logout],
      [backupData], [restoreData], [enableAutoBackup]).

    The SDK is asynchronous but strictly sequential: every call is awaited
    before the next statement runs.  It is therefore embedded in a state and
    exception monad over a [World] that holds the SDK instance ([appId],
    [apiBaseUrl], the Dexie table [users], [currentUser]), the remote sync
    server, the entropy pool of the CSPRNG and a ghost log of the effects
    performed, in order.

    What the SDK imports from elsewhere is kept abstract, as interfaces:
    the JavaScript engine ([JSON.parse], [JSON.stringify], numbers), the
    CryptoJS library and the HTTP endpoint reached through [fetch].  The
    general theorems hold for every instance of them.  One executable
    instance, the reference platform, runs the SDK on concrete inputs. *)

From Stdlib Require Import String Ascii ZArith List Bool.
From stdpp Require Import base option list gmap strings fin_maps pretty.

Open Scope string_scope.

(** ** JavaScript values *)

(** Numbers are IEEE doubles in JavaScript; the SDK never computes with
    them, it only tests them for truthiness and prints them inside template
    literals, so they are kept abstract. *)
Class JsNumber := {
  number : Type;
  number_truthy : number → bool;
  number_toString : number → string;
}.

Section Values.
Context `{JsNumber}.

#[local] Set Warnings "-register-all".

(** The values [JSON.parse] and [response.json()] can produce. *)
Inductive json :=
  | JNull
  | JBool (b : bool)
  | JNumber (n : number)
  | JString (s : string)
  | JArray (items : list json)
  | JObject (fields : list (string * json)).

(** A value that may be [undefined]: [None] stands for [undefined]. *)
Definition value := option json.

(** ToBoolean, as used by [!x], [x || y] and [if (x)]. *)
Definition truthy (v : json) : bool :=
  match v with
  | JNull => false
  | JBool b => b
  | JNumber n => number_truthy n
  | JString s => negb (String.eqb s "")
  | JArray _ | JObject _ => true
  end.

Definition truthy_value (v : value) : bool :=
  match v with
  | Some j => truthy j
  | None => false
  end.

(** ToString, as used by template literals.  [Array.prototype.join] prints
    [null] elements as the empty string. *)
Fixpoint ToString (v : json) : string :=
  match v with
  | JNull => "null"
  | JBool true => "true"
  | JBool false => "false"
  | JNumber n => number_toString n
  | JString s => s
  | JArray items =>
      String.concat ","
        (List.map (fun x => match x with JNull => "" | _ => ToString x end) items)
  | JObject _ => "[object Object]"
  end.

Fixpoint assoc (name : string) (fields : list (string * json)) : value :=
  match fields with
  | [] => None
  | (k, v) :: rest => if String.eqb k name then Some v else assoc name rest
  end.

(** Reading a property [v.name].  Reading from [null] throws a TypeError
    whose text depends on the engine; reading a name that the value does
    not carry gives [undefined].  The SDK only reads [message], [ipfsHash],
    [kaironBackup] and [pinataContent], none of which exists on the
    prototypes of strings, numbers, booleans or arrays. *)
Inductive PropRead :=
  | ReadThrows (message : string)
  | ReadValue (v : value).

Class JsEngine := {
  JSON_stringify : json → string;
  JSON_parse : string → option json;        (* [None]: throws SyntaxError *)
  null_read_message : string → string;      (* text of the TypeError *)
}.

Context `{JsEngine}.

Definition get_prop (v : json) (name : string) : PropRead :=
  match v with
  | JNull => ReadThrows (null_read_message name)
  | JObject fields => ReadValue (assoc name fields)
  | _ => ReadValue None
  end.

End Values.

Arguments json {_}.
Arguments value {_}.
Arguments PropRead {_}.
Arguments JsEngine {_}.

(** ** CryptoJS *)

(** The part of CryptoJS the SDK calls.  [WordArray_random] draws from the
    entropy pool; [AES_encrypt] does too (its salt), and so does
    [AES_decrypt] when the data it is given carries no salt.  [AES_decrypt]
    and the UTF-8 decoder may throw, which is [None] here. *)
Class CryptoJS `{JsNumber} := {
  Entropy : Type;
  WordArray : Type;
  CipherParams : Type;
  WordArray_random : nat → Entropy → WordArray * Entropy;
  WordArray_toString : WordArray → string;            (* hex *)
  SHA256 : string → WordArray;
  AES_encrypt : string → string → Entropy → CipherParams * Entropy;
  CipherParams_toString : CipherParams → string;      (* OpenSSL, base64 *)
  AES_decrypt : json → string → Entropy → option WordArray * Entropy;
  WordArray_toString_Utf8 : WordArray → option string;
}.

(** ** encryption.js *)

Section Encryption.
Context `{JsNumber} `{!JsEngine} `{!CryptoJS}.

Definition generateRecoveryKey (e : Entropy) : string * Entropy :=
  let '(words, e') := WordArray_random 16 e in
  (WordArray_toString words, e').

Definition hashPassword (password : string) : string :=
  WordArray_toString (SHA256 password).

Definition encryptData (data : json) (secretKey : string) (e : Entropy)
  : string * Entropy :=
  let dataString := JSON_stringify data in
  let '(c, e') := AES_encrypt dataString secretKey e in
  (CipherParams_toString c, e').

(** The [try] block: [None] is an exception, [Some] a normal return. *)
Definition decryptData_try (encryptedData : json) (secretKey : string)
  (e : Entropy) : option json * Entropy :=
  let '(bytes, e') := AES_decrypt encryptedData secretKey e in
  (match bytes ≫= WordArray_toString_Utf8 with
   | None => None
   | Some decryptedString =>
       if String.eqb decryptedString "" then Some JNull
       else JSON_parse decryptedString
   end, e').

(** [catch (error) { return null; }] *)
Definition decryptData (encryptedData : json) (secretKey : string)
  (e : Entropy) : json * Entropy :=
  let '(returned, e') := decryptData_try encryptedData secretKey e in
  (match returned with
   | Some v => v
   | None => JNull
   end, e').

End Encryption.

(** ** The network, as [fetch] shows it to the SDK *)

Record RequestInit := {
  method : option string;
  headers : list (string * string);
  body : option string;
}.

(** [options = {}] *)
Definition no_options : RequestInit :=
  {| method := None; headers := []; body := None |}.

Definition post_json (payload : string) : RequestInit :=
  {| method := Some "POST";
     headers := [("Content-Type", "application/json")];
     body := Some payload |}.

Section Network.
Context `{JsNumber}.

(** What [response.json()] settles to: the parsed body, or a rejection
    with a SyntaxError when the body is not JSON. *)
Inductive BodyJson :=
  | BodyOk (v : json)
  | BodyBad (message : string).

Record Response := {
  ok : bool;
  statusText : string;
  response_json : BodyJson;
}.

(** [fetch] rejects (no connection, DNS, CORS, ...) or resolves with a
    response, whatever its status. *)
Inductive FetchOutcome :=
  | FetchRejected (message : string)
  | FetchResponse (r : Response).

(** The sync server behind [apiBaseUrl]: any state, any behaviour. *)
Class SyncServer := {
  ServerState : Type;
  fetch : string → RequestInit → ServerState → FetchOutcome * ServerState;
}.

End Network.

Arguments BodyJson {_}.
Arguments Response {_}.
Arguments FetchOutcome {_}.
Arguments SyncServer {_}.

(** ** The SDK class *)

Section SDK.
Context `{JsNumber} `{!JsEngine} `{!CryptoJS} `{!SyncServer}.

(** A row of the Dexie table
    [users: "&username, hashedPassword, recoveryKey, backupHash"].
    [hashedPassword] is [null] after a restore. *)
Record User := {
  username : string;
  hashedPassword : option string;
  recoveryKey : string;
  backupHash : json;
}.

(** What a call can throw: the SDK's own [PortIDError], or an error of the
    engine or of Dexie that the SDK lets through. *)
Inductive Error :=
  | PortIDError (message : string)
  | SyntaxError (message : string)
  | TypeError (message : string)
  | ConstraintError (message : string).

Inductive Result (A : Type) :=
  | Ok (a : A)
  | Throw (e : Error).
Arguments Ok {A} a.
Arguments Throw {A} e.

(** The effects a call performs, in the order it performs them. *)
Inductive Event :=
  | EvFetch (url : string) (options : RequestInit)
  | EvAdd (record : User)
  | EvPut (record : User)
  | EvUpdate (key : string) (newHash : json).

Record World := {
  appId : string;
  apiBaseUrl : string;
  users : gmap string User;
  currentUser : option string;
  remote : ServerState;
  entropy : Entropy;
  log : list Event;
}.

Definition set_users (f : gmap string User → gmap string User) (w : World) :=
  {| appId := appId w; apiBaseUrl := apiBaseUrl w; users := f (users w);
     currentUser := currentUser w; remote := remote w;
     entropy := entropy w; log := log w |}.

Definition set_currentUser (c : option string) (w : World) :=
  {| appId := appId w; apiBaseUrl := apiBaseUrl w; users := users w;
     currentUser := c; remote := remote w;
     entropy := entropy w; log := log w |}.

Definition set_remote (s : ServerState) (w : World) :=
  {| appId := appId w; apiBaseUrl := apiBaseUrl w; users := users w;
     currentUser := currentUser w; remote := s;
     entropy := entropy w; log := log w |}.

Definition set_entropy (e : Entropy) (w : World) :=
  {| appId := appId w; apiBaseUrl := apiBaseUrl w; users := users w;
     currentUser := currentUser w; remote := remote w;
     entropy := e; log := log w |}.

Definition record_event (ev : Event) (w : World) :=
  {| appId := appId w; apiBaseUrl := apiBaseUrl w; users := users w;
     currentUser := currentUser w; remote := remote w;
     entropy := entropy w; log := log w ++ [ev] |}.

(** *** The monad of SDK calls *)

Definition M (A : Type) : Type := World → Result A * World.

#[export] Instance M_ret : MRet M := λ A a w, (Ok a, w).

#[export] Instance M_bind : MBind M := λ A B f m w,
  match m w with
  | (Ok a, w') => f a w'
  | (Throw e, w') => (Throw e, w')
  end.

Definition throw {A : Type} (e : Error) : M A := λ w, (Throw e, w).

Definition this {A : Type} (field : World → A) : M A := λ w, (Ok (field w), w).

Definition modify (f : World → World) : M unit := λ w, (Ok tt, f w).

Definition random {A : Type} (draw : Entropy → A * Entropy) : M A := λ w,
  let '(a, e') := draw (entropy w) in (Ok a, set_entropy e' w).

(** *** Dexie: [db.users.get / add / put / update] *)

Definition db_users_get (key : string) : M (option User) :=
  this (λ w, users w !! key).

(** [add] rejects with a ConstraintError when the primary key is taken. *)
Definition db_users_add (record : User) : M unit :=
  existing ← db_users_get (username record);
  match existing with
  | Some _ => throw (ConstraintError "Key already exists in the object store.")
  | None =>
      modify (record_event (EvAdd record));;
      modify (set_users (insert (username record) record))
  end.

Definition db_users_put (record : User) : M unit :=
  modify (record_event (EvPut record));;
  modify (set_users (insert (username record) record)).

(** [update(key, {backupHash})] changes the row if it exists and is a
    no-op otherwise. *)
Definition with_backupHash (h : json) (u : User) : User :=
  {| username := username u; hashedPassword := hashedPassword u;
     recoveryKey := recoveryKey u; backupHash := h |}.

Definition db_users_update (key : string) (newHash : json) : M unit :=
  modify (record_event (EvUpdate key newHash));;
  modify (set_users (alter (with_backupHash newHash) key)).

(** *** The constructor *)

(** [s.endsWith("/") ? s.slice(0, -1) : s] *)
Fixpoint strip_trailing_slash (s : string) : string :=
  match s with
  | "" => ""
  | String c "" => if Ascii.eqb c "/" then "" else s
  | String c rest => String c (strip_trailing_slash rest)
  end.

(** [new PortID(appId, apiBaseUrl)].  The Dexie database is persistent: the
    instance opens whatever table [stored] the application id owns. *)
Definition new_PortID (app base : string) (stored : gmap string User)
  (server : ServerState) (pool : Entropy) : Result World :=
  if String.eqb app "" || String.eqb base "" then
    Throw (PortIDError "appId and apiBaseUrl are required.")
  else
    Ok {| appId := app; apiBaseUrl := strip_trailing_slash base;
          users := stored; currentUser := None;
          remote := server; entropy := pool; log := [] |}.

(** *** [_request] *)

Definition _request (endpoint : string) (options : RequestInit) : M json := λ w,
  let url := apiBaseUrl w +:+ endpoint in
  let '(outcome, server') := fetch url options (remote w) in
  let w' := record_event (EvFetch url options) (set_remote server' w) in
  (* everything thrown inside the [try] block is caught and rewrapped *)
  let rewrap (cause : string) : Result json * World :=
    (Throw (PortIDError ("Network or API error: " +:+ cause)), w') in
  match outcome with
  | FetchRejected cause => rewrap cause
  | FetchResponse response =>
      if negb (ok response) then
        match response_json response with
        | BodyBad cause => rewrap cause
        | BodyOk errorData =>
            match get_prop errorData "message" with
            | ReadThrows cause => rewrap cause
            | ReadValue m =>
                rewrap ("API Error: " +:+
                        match m with
                        | Some j => if truthy j then ToString j
                                    else statusText response
                        | None => statusText response
                        end)
            end
        end
      else
        (* [return response.json()] is not awaited inside the [try]: its
           rejection is not caught *)
        match response_json response with
        | BodyOk v => (Ok v, w')
        | BodyBad cause => (Throw (SyntaxError cause), w')
        end
  end.

(** A property read inside a method body: its TypeError is not caught. *)
Definition lift (r : PropRead) : M value :=
  match r with
  | ReadThrows cause => throw (TypeError cause)
  | ReadValue x => mret x
  end.

Definition read (v : json) (name : string) : M value := lift (get_prop v name).

(** [if (!v) throw new PortIDError(message)] *)
Definition require (v : value) (message : string) : M json :=
  match v with
  | Some j => if truthy j then mret j else throw (PortIDError message)
  | None => throw (PortIDError message)
  end.

(** *** [signUp] *)

Definition initialData : json := JObject [("sdk_version", JString "1.0.0")].

Definition signUp (username password : string) : M string :=
  if String.eqb username "" || String.eqb password "" then
    throw (PortIDError "Username and password are required.")
  else
    existingUser ← db_users_get username;
    match existingUser with
    | Some _ => throw (PortIDError "Username already exists locally.")
    | None =>
        (* Step 1 *)
        recoveryKey ← random generateRecoveryKey;
        let hashedPassword := hashPassword password in
        (* Step 2 *)
        app ← this appId;
        _request "/api/set-hash"
          (post_json (JSON_stringify (JObject
             [("app_id", JString app); ("username", JString username);
              ("hash", JString "pending_first_backup")])));;
        (* Step 3 *)
        encryptedData ← random (encryptData initialData recoveryKey);
        backupResponse ← _request "/api/backup"
          (post_json (JSON_stringify (JObject
             [("encryptedData", JString encryptedData);
              ("username", JString username)])));
        found ← read backupResponse "ipfsHash";
        ipfsHash ← require found
          "Initial backup did not return a valid IPFS hash.";
        (* Step 4 *)
        app ← this appId;
        _request "/api/set-hash"
          (post_json (JSON_stringify (JObject
             [("app_id", JString app); ("username", JString username);
              ("hash", ipfsHash)])));;
        (* Step 5 *)
        db_users_add
          {| username := username; hashedPassword := Some hashedPassword;
             recoveryKey := recoveryKey; backupHash := ipfsHash |};;
        (* Step 6 *)
        mret recoveryKey
    end.

(** *** [login] and [logout] *)

Definition login (username password : string) : M bool :=
  user ← db_users_get username;
  let hashed := hashPassword password in
  match user with
  | Some u =>
      if bool_decide (hashedPassword u = Some hashed) then
        modify (set_currentUser (Some username));;
        mret true
      else mret false
  | None => mret false
  end.

Definition logout : M unit := modify (set_currentUser None).

(** *** [backupData] *)

(** [!this.currentUser]: [null] and the empty string are both falsy. *)
Definition logged_in (c : option string) : option string :=
  match c with
  | Some name => if String.eqb name "" then None else Some name
  | None => None
  end.

Definition backupData (data : json) : M json :=
  session ← this currentUser;
  match logged_in session with
  | None => throw (PortIDError "User is not logged in. Please call login() first.")
  | Some current =>
      user ← db_users_get current;
      match user with
      | None => throw (PortIDError "Could not find user credentials locally.")
      | Some u =>
          encryptedData ← random (encryptData data (recoveryKey u));
          backupResponse ← _request "/api/backup"
            (post_json (JSON_stringify (JObject
               [("encryptedData", JString encryptedData);
                ("username", JString current)])));
          found ← read backupResponse "ipfsHash";
          ipfsHash ← require found "Backup did not return a valid IPFS hash.";
          app ← this appId;
          _request "/api/set-hash"
            (post_json (JSON_stringify (JObject
               [("app_id", JString app); ("username", JString current);
                ("hash", ipfsHash)])));;
          db_users_update current ipfsHash;;
          mret ipfsHash
      end
  end.

(** *** [restoreData] *)

(** [r.kaironBackup || r.pinataContent?.kaironBackup] *)
Definition backup_blob (restoreResponse : json) : PropRead :=
  match get_prop restoreResponse "kaironBackup" with
  | ReadThrows cause => ReadThrows cause
  | ReadValue direct =>
      if truthy_value direct then ReadValue direct
      else
        match get_prop restoreResponse "pinataContent" with
        | ReadThrows cause => ReadThrows cause
        | ReadValue None | ReadValue (Some JNull) => ReadValue None
        | ReadValue (Some content) => get_prop content "kaironBackup"
        end
  end.

Definition restoreData (username recoveryKey : string) : M json :=
  (* 1. *)
  app ← this appId;
  directory ← _request
    ("/api/get-hash?app_id=" +:+ app +:+ "&username=" +:+ username) no_options;
  found ← read directory "ipfsHash";
  ipfsHash ← require found "Could not find a backup hash for this user.";
  (* 2. *)
  restoreResponse ← _request
    ("/api/restore?hash=" +:+ ToString ipfsHash) no_options;
  blob ← lift (backup_blob restoreResponse);
  encryptedDataBlob ← require blob "Backup data blob is in an unexpected format.";
  (* 3. *)
  decryptedData ← random (decryptData encryptedDataBlob recoveryKey);
  match decryptedData with
  | JNull =>
      throw (PortIDError "Decryption failed. The Recovery Key is likely incorrect.")
  | _ =>
      (* 4. *)
      db_users_put
        {| username := username; recoveryKey := recoveryKey;
           backupHash := ipfsHash; hashedPassword := None |};;
      mret decryptedData
  end.

End SDK.

Arguments Ok {A} a.
Arguments Throw {A} e.

(** ** [enableAutoBackup] and the browser

    The method reads and writes nothing of the instance: it asks the
    browser to wake the page's service worker periodically.  The browser is
    what the method sees of it: whether [navigator] has a [serviceWorker];
    the registration [navigator.serviceWorker.ready] resolves to, if it ever
    does (the promise never rejects, and stays pending while the page has no
    active worker); whether that registration has a [periodicSync]; and how
    [periodicSync.register] settles.  The calls of [register] and the lines
    printed on the console are logged. *)

(** Arithmetic on numbers, for the interval in milliseconds. *)
Class JsArithmetic `{JsNumber} := {
  number_of_Z : Z → number;                   (* an integer literal *)
  number_mul : number → number → number;      (* [*] *)
}.

Section AutoBackup.
Context `{JsNumber} `{!JsArithmetic}.

Record SyncRequest := { tag : string; minInterval : number }.

(** [None]: the promise of [register] resolves; [Some message]: it rejects
    with an error of that message. *)
Record ServiceWorkerRegistration := {
  periodicSync : option (SyncRequest → option string);
}.

Record Browser := {
  serviceWorker : option (option ServiceWorkerRegistration);
  sync_requests : list SyncRequest;
  console : list string;
}.

Inductive Settled :=
  | Returned
  | Thrown (e : Error)
  | Pending.                                  (* the promise never settles *)

Definition hours_in_ms (hours : number) : number :=
  number_mul (number_mul (number_mul hours (number_of_Z 60)) (number_of_Z 60))
             (number_of_Z 1000).

(** [minIntervalHours = 12]: [None] is an argument left out. *)
Definition enableAutoBackup (minIntervalHours : option number) (b : Browser)
  : Settled * Browser :=
  let hours := default (number_of_Z 12) minIntervalHours in
  match serviceWorker b with
  | None =>
      (Thrown (PortIDError "Service Workers are not supported by this browser."),
       b)
  | Some None => (Pending, b)
  | Some (Some registration) =>
      match periodicSync registration with
      | None =>
          (Thrown (PortIDError
             "Periodic Background Sync is not supported by this browser."), b)
      | Some register =>
          let request :=
            {| tag := "portid-auto-backup"; minInterval := hours_in_ms hours |} in
          let asked :=
            {| serviceWorker := serviceWorker b;
               sync_requests := sync_requests b ++ [request];
               console := console b |} in
          match register request with
          | None =>
              (Returned,
               {| serviceWorker := serviceWorker asked;
                  sync_requests := sync_requests asked;
                  console :=
                    console asked ++ ["PortID auto-backup has been registered."] |})
          | Some message =>
              (Thrown (PortIDError
                 ("Auto-backup registration failed: " +:+ message)), asked)
          end
      end
  end.


End AutoBackup.

(** ** The vocabulary of the specification *)

Section Vocabulary.
Context `{JsNumber} `{!JsEngine} `{!CryptoJS} `{!SyncServer}.

(** The SDK has one error class; the failure kinds of the specification
    are told apart by the message. *)
Definition MissingCredentials : Error :=
  PortIDError "Username and password are required.".
Definition DuplicateUser : Error :=
  PortIDError "Username already exists locally.".
Definition BackupFailed : Error :=
  PortIDError "Initial backup did not return a valid IPFS hash.".
Definition NotLoggedIn : Error :=
  PortIDError "User is not logged in. Please call login() first.".
Definition NoBackupFound : Error :=
  PortIDError "Could not find a backup hash for this user.".
Definition BlobUnavailable : Error :=
  PortIDError "Backup data blob is in an unexpected format.".
Definition InvalidRecoveryKey : Error :=
  PortIDError "Decryption failed. The Recovery Key is likely incorrect.".

(** What [_request] throws when the request itself fails, whatever the
    endpoint. *)
Definition NetworkOrApiError (cause : string) : Error :=
  PortIDError ("Network or API error: " +:+ cause).

(** An error of the engine that escapes the SDK unwrapped. *)
Definition unwrapped (e : Error) : Prop :=
  match e with
  | SyntaxError _ | TypeError _ => True
  | _ => False
  end.

(** The body of a reply the SDK takes as a success: the request went
    through, the status is in the 200 range and the body is JSON. *)
Definition accepted (outcome : FetchOutcome) : option json :=
  match outcome with
  | FetchResponse r =>
      if ok r then
        match response_json r with
        | BodyOk v => Some v
        | BodyBad _ => None
        end
      else None
  | FetchRejected _ => None
  end.

(** [undefined] and the falsy values are what [if (!v)] rejects. *)
Definition keep_truthy (v : value) : option json :=
  v ≫= λ j, if truthy j then Some j else None.

(** The pointer an accepted reply carries in [ipfsHash], if it is truthy. *)
Definition pointer_in (reply : json) : option json :=
  match get_prop reply "ipfsHash" with
  | ReadValue found => keep_truthy found
  | ReadThrows _ => None
  end.

(** The blob an accepted reply of [/api/restore] carries, if it is truthy. *)
Definition blob_in (reply : json) : option json :=
  match backup_blob reply with
  | ReadValue found => keep_truthy found
  | ReadThrows _ => None
  end.


(** The world a request leaves behind, whatever the reply. *)
Definition sent (endpoint : string) (options : RequestInit) w : World :=
  record_event (EvFetch (apiBaseUrl w +:+ endpoint) options)
    (set_remote (fetch (apiBaseUrl w +:+ endpoint) options (remote w)).2 w).

Definition lookup_url (w : World) (name : string) : string :=
  apiBaseUrl w +:+ ("/api/get-hash?app_id=" +:+ appId w +:+ "&username=" +:+ name).
Definition fetch_url (w : World) (pointer : json) : string :=
  apiBaseUrl w +:+ ("/api/restore?hash=" +:+ ToString pointer).




(** A payload is serializable when [JSON.parse] reads it back from the text
    [JSON.stringify] gives it. *)
Definition serializable (P : json) : Prop :=
  JSON_parse (JSON_stringify P) = Some P.

(** CryptoJS deciphers, under the same key, the text it enciphered (with
    the entropy [pool]), whatever the entropy [pool'] at the time. *)
Definition deciphers (text key : string) (pool pool' : Entropy) : Prop :=
  (AES_decrypt (JString (CipherParams_toString (AES_encrypt text key pool).1))
     key pool').1
    ≫= WordArray_toString_Utf8 = Some text.

(** The row a restore leaves behind. *)
Definition restored_record (name key : string) (pointer : json) : User :=
  {| username := name; hashedPassword := None;
     recoveryKey := key; backupHash := pointer |}.

(** The characters RFC 3986 leaves unreserved: a query string carries
    them unchanged, whether or not the client escapes what it sends. *)
Definition unreserved (c : ascii) : bool :=
  let n := nat_of_ascii c in
  ((48 <=? n) && (n <=? 57) || (65 <=? n) && (n <=? 90)
   || (97 <=? n) && (n <=? 122)
   || (n =? 45) || (n =? 46) || (n =? 95) || (n =? 126))%nat.

Fixpoint url_safe (s : string) : bool :=
  match s with
  | String c rest => unreserved c && url_safe rest
  | "" => true
  end.

(** The cipher gives the initial payload back, when [signUp] draws the key
    and the salt from [pool]. *)
Definition roundtrips (pool : Entropy) : Prop :=
  let '(key, e1) := generateRecoveryKey pool in
  let '(blob, e2) := encryptData initialData key e1 in
  (decryptData (JString blob) key e2).1 = initialData.

(** *** Frames, traffic and sequences of calls *)

(** The requests of a log, in order. *)
Definition requests (l : list Event) : list (string * RequestInit) :=
  omap (λ ev, match ev with
              | EvFetch url options => Some (url, options)
              | _ => None
              end) l.

(** [R] relates the world a call starts in to the world it leaves,
    whatever the call returns or throws. *)
Definition preserves {A : Type} (R : World → World → Prop) (m : M A) : Prop :=
  ∀ w, R w (m w).2.

(** What a relation between worlds has to allow for the steps of a call to
    preserve it: drawing entropy and the effects that are no request, to
    begin with; then, one by one, a request and the three ways the SDK
    writes a row: [add] on a fresh key, [put] of a row without a password
    verifier, [update] of a pointer. *)
Class LocalFrame (R : World → World → Prop) : Prop := {
  frame_refl : ∀ w, R w w;
  frame_trans : ∀ w1 w2 w3, R w1 w2 → R w2 w3 → R w1 w3;
  frame_entropy : ∀ w pool, R w (set_entropy pool w);
  frame_event : ∀ w ev, requests [ev] = [] → R w (record_event ev w);
}.

Class AllowsRequest (R : World → World → Prop) : Prop :=
  allows_request : ∀ w s url options,
    R w (record_event (EvFetch url options) (set_remote s w)).

Class AllowsAdd (R : World → World → Prop) : Prop :=
  allows_add : ∀ w row,
    users w !! username row = None →
    R w (set_users (insert (username row) row) w).

Class AllowsPut (R : World → World → Prop) : Prop :=
  allows_put : ∀ w row,
    hashedPassword row = None →
    R w (set_users (insert (username row) row) w).

Class AllowsUpdate (R : World → World → Prop) : Prop :=
  allows_update : ∀ w key h,
    R w (set_users (alter (with_backupHash h) key) w).

(** The instance is the same: its application, its server, its session. *)
Definition same_instance (w w' : World) : Prop :=
  appId w' = appId w ∧ apiBaseUrl w' = apiBaseUrl w
  ∧ currentUser w' = currentUser w.

(** No row is lost. *)
Definition keeps_rows (w w' : World) : Prop :=
  dom (users w) ⊆ dom (users w').

(** Every row is still there, with its password verifier and its recovery
    key. *)
Definition keeps_credentials (w w' : World) : Prop :=
  ∀ name row, users w !! name = Some row →
    ∃ row', users w' !! name = Some row'
            ∧ hashedPassword row' = hashedPassword row
            ∧ recoveryKey row' = recoveryKey row.

(** If [name] had a row without a password verifier, it still has one. *)
Definition without_password (name : string) (w : World) : Prop :=
  ∃ row, users w !! name = Some row ∧ hashedPassword row = None.

Definition keeps_without_password (name : string) (w w' : World) : Prop :=
  without_password name w → without_password name w'.

(** The log only grows. *)
Definition log_grows (w w' : World) : Prop := log w `prefix_of` log w'.

(** Nothing was sent, and the server is as it was. *)
Definition stays_local (w w' : World) : Prop :=
  remote w' = remote w ∧ requests (log w') = requests (log w).

(** Two runs sent the same requests and left the server in the same state;
    and, on top of that, returned or threw the same. *)
Definition same_traffic {A : Type} (x y : Result A * World) : Prop :=
  remote x.2 = remote y.2 ∧ requests (log x.2) = requests (log y.2).

Definition same_outcome {A : Type} (x y : Result A * World) : Prop :=
  x.1 = y.1 ∧ same_traffic x y.

(** The calls an application can make, and the world a sequence of them
    leaves; what each returns is dropped. *)
Inductive Call :=
  | CallSignUp (username password : string)
  | CallLogin (username password : string)
  | CallLogout
  | CallBackupData (data : json)
  | CallRestoreData (username recoveryKey : string).

Definition perform (c : Call) (w : World) : World :=
  match c with
  | CallSignUp u p => (signUp u p w).2
  | CallLogin u p => (login u p w).2
  | CallLogout => (logout w).2
  | CallBackupData data => (backupData data w).2
  | CallRestoreData u k => (restoreData u k w).2
  end.

Definition perform_all (calls : list Call) (w : World) : World :=
  fold_left (λ w c, perform c w) calls w.

(** The user of the session, if there is one, has a row. *)
Definition session_has_row (w : World) : Prop :=
  ∀ c, logged_in (currentUser w) = Some c → is_Some (users w !! c).

Definition MissingRow : Error :=
  PortIDError "Could not find user credentials locally.".
Definition BackupUnanswered : Error :=
  PortIDError "Backup did not return a valid IPFS hash.".
Definition MissingArguments : Error :=
  PortIDError "appId and apiBaseUrl are required.".

End Vocabulary.

(** ** The algorithms behind CryptoJS

    CryptoJS is not part of the SDK; what follows restates, from their
    public definitions, the algorithms its calls run, so that the SDK can be
    executed on concrete inputs: MD5 (RFC 1321), SHA-256 (FIPS 180-4),
    AES with a 256-bit key (FIPS 197) in cipher block chaining, Base64, the
    UTF-8 check of [enc.Utf8], and the passphrase mode of [CryptoJS.AES],
    which is OpenSSL's: a random salt of eight bytes, key and
    initialisation vector derived from passphrase and salt with MD5, the
    text [Salted__], the salt and the ciphertext in Base64.  A string
    stands for its UTF-8 bytes. *)

Module Bytes.

(** Bytes and 32-bit words are binary naturals, kept in range by hand. *)
Definition byte := N.
Definition word := N.

Definition bytes_of_string (s : string) : list byte :=
  List.map N_of_ascii (list_ascii_of_string s).

Definition string_of_bytes (l : list byte) : string :=
  string_of_list_ascii (List.map ascii_of_N l).

Definition mask32 (x : N) : word := N.land x 0xffffffff.
Definition add32 (a b : word) : word := mask32 (a + b).
Definition not32 (a : word) : word := N.lxor a 0xffffffff.
Definition rotl32 (x : word) (n : N) : word :=
  mask32 (N.lor (N.shiftl x n) (N.shiftr x (32 - n))).
Definition rotr32 (x : word) (n : N) : word := rotl32 x (32 - n).

(** Big-endian and little-endian bytes of a number, [n] of them. *)
Fixpoint le_bytes (n : nat) (x : N) : list byte :=
  match n with
  | O => []
  | S n' => N.land x 0xff :: le_bytes n' (N.shiftr x 8)
  end.

Definition be_bytes (n : nat) (x : N) : list byte := rev (le_bytes n x).

Definition le_value (l : list byte) : N :=
  fold_right (λ b acc, b + 256 * acc)%N 0%N l.

Definition be_value (l : list byte) : N := le_value (rev l).

(** Cuts a list into pieces of [n] elements; [fuel] bounds the pieces. *)
Fixpoint chunks {A : Type} (fuel n : nat) (l : list A) : list (list A) :=
  match fuel, l with
  | O, _ | _, [] => []
  | S fuel', _ => take n l :: chunks fuel' n (drop n l)
  end.

Definition pieces {A : Type} (n : nat) (l : list A) : list (list A) :=
  chunks (length l) n l.

Definition hex_digit (n : N) : ascii :=
  ascii_of_N (if (n <? 10)%N then 48 + n else 87 + n).

Definition hex (l : list byte) : string :=
  string_of_list_ascii
    (flat_map (λ b, [hex_digit (b / 16); hex_digit (b mod 16)]) l).

End Bytes.

Module MD5.
Import Bytes.

(** RFC 1321. *)
Definition shifts : list N :=
  [7; 12; 17; 22; 7; 12; 17; 22; 7; 12; 17; 22; 7; 12; 17; 22;
   5; 9; 14; 20; 5; 9; 14; 20; 5; 9; 14; 20; 5; 9; 14; 20;
   4; 11; 16; 23; 4; 11; 16; 23; 4; 11; 16; 23; 4; 11; 16; 23;
   6; 10; 15; 21; 6; 10; 15; 21; 6; 10; 15; 21; 6; 10; 15; 21]%N.

(** [floor (2^32 * |sin (i + 1)|)] *)
Definition sines : list N :=
  [0xd76aa478; 0xe8c7b756; 0x242070db; 0xc1bdceee; 0xf57c0faf; 0x4787c62a;
   0xa8304613; 0xfd469501; 0x698098d8; 0x8b44f7af; 0xffff5bb1; 0x895cd7be;
   0x6b901122; 0xfd987193; 0xa679438e; 0x49b40821; 0xf61e2562; 0xc040b340;
   0x265e5a51; 0xe9b6c7aa; 0xd62f105d; 0x02441453; 0xd8a1e681; 0xe7d3fbc8;
   0x21e1cde6; 0xc33707d6; 0xf4d50d87; 0x455a14ed; 0xa9e3e905; 0xfcefa3f8;
   0x676f02d9; 0x8d2a4c8a; 0xfffa3942; 0x8771f681; 0x6d9d6122; 0xfde5380c;
   0xa4beea44; 0x4bdecfa9; 0xf6bb4b60; 0xbebfbc70; 0x289b7ec6; 0xeaa127fa;
   0xd4ef3085; 0x04881d05; 0xd9d4d039; 0xe6db99e5; 0x1fa27cf8; 0xc4ac5665;
   0xf4292244; 0x432aff97; 0xab9423a7; 0xfc93a039; 0x655b59c3; 0x8f0ccc92;
   0xffeff47d; 0x85845dd1; 0x6fa87e4f; 0xfe2ce6e0; 0xa3014314; 0x4e0811a1;
   0xf7537e82; 0xbd3af235; 0x2ad7d2bb; 0xeb86d391]%N.

Definition pad (message : list byte) : list byte :=
  let n := length message in
  let zeros := ((55 + 64 - n mod 64) mod 64)%nat in
  message ++ [0x80%N] ++ replicate zeros 0%N ++ le_bytes 8 (8 * N.of_nat n).

Definition step (block : list word) (state : word * word * word * word) (i : nat)
  : word * word * word * word :=
  let '(a, b, c, d) := state in
  let round := (i / 16)%nat in
  let f :=
    match round with
    | 0%nat => N.lor (N.land b c) (N.land (not32 b) d)
    | 1%nat => N.lor (N.land d b) (N.land (not32 d) c)
    | 2%nat => N.lxor b (N.lxor c d)
    | _ => N.lxor c (N.lor b (not32 d))
    end in
  let g :=
    match round with
    | 0%nat => i
    | 1%nat => ((5 * i + 1) mod 16)%nat
    | 2%nat => ((3 * i + 5) mod 16)%nat
    | _ => ((7 * i) mod 16)%nat
    end in
  let sum := add32 (add32 f a) (add32 (nth i sines 0%N) (nth g block 0%N)) in
  (d, add32 b (rotl32 sum (nth i shifts 0%N)), b, c).

Definition compress (state : word * word * word * word) (block : list byte)
  : word * word * word * word :=
  let words := List.map le_value (pieces 4 block) in
  let '(a, b, c, d) := state in
  let '(a', b', c', d') := fold_left (step words) (seq 0 64) state in
  (add32 a a', add32 b b', add32 c c', add32 d d').

Definition digest (message : list byte) : list byte :=
  let '(a, b, c, d) :=
    fold_left compress (pieces 64 (pad message))
      (0x67452301, 0xefcdab89, 0x98badcfe, 0x10325476)%N in
  le_bytes 4 a ++ le_bytes 4 b ++ le_bytes 4 c ++ le_bytes 4 d.

End MD5.


Module SHA2.
Import Bytes.

(** FIPS 180-4.  The constants are the fractional parts of the square and
    cube roots of the first primes, computed here rather than tabulated. *)
Definition is_prime (n : nat) : bool :=
  (2 <=? n)%nat && forallb (λ d, negb (n mod d =? 0)%nat) (seq 2 (n - 2)).

Definition primes : list N :=
  Eval vm_compute in List.map N.of_nat (filter is_prime (seq 2 310)).

Fixpoint root3 (bits : nat) (x r : N) : N :=
  match bits with
  | O => r
  | S bits' =>
      let r' := (r + 2 ^ N.of_nat bits')%N in
      if (r' * r' * r' <=? x)%N then root3 bits' x r' else root3 bits' x r
  end.

Definition initial : list word :=
  Eval vm_compute in
    List.map (λ p, mask32 (N.sqrt (p * 2 ^ 64))) (take 8 primes).

Definition roots : list word :=
  Eval vm_compute in
    List.map (λ p, mask32 (root3 40 (p * 2 ^ 96) 0)) (take 64 primes).

Definition pad (message : list byte) : list byte :=
  let n := length message in
  let zeros := ((55 + 64 - n mod 64) mod 64)%nat in
  message ++ [0x80%N] ++ replicate zeros 0%N ++ be_bytes 8 (8 * N.of_nat n).

Definition small0 (x : word) : word :=
  N.lxor (rotr32 x 7) (N.lxor (rotr32 x 18) (N.shiftr x 3)).
Definition small1 (x : word) : word :=
  N.lxor (rotr32 x 17) (N.lxor (rotr32 x 19) (N.shiftr x 10)).
Definition big0 (x : word) : word :=
  N.lxor (rotr32 x 2) (N.lxor (rotr32 x 13) (rotr32 x 22)).
Definition big1 (x : word) : word :=
  N.lxor (rotr32 x 6) (N.lxor (rotr32 x 11) (rotr32 x 25)).

(** The message schedule, latest word first. *)
Definition extend (recent : list word) (_ : nat) : list word :=
  add32 (add32 (small1 (nth 1 recent 0%N)) (nth 6 recent 0%N))
        (add32 (small0 (nth 14 recent 0%N)) (nth 15 recent 0%N)) :: recent.

Definition schedule (block : list byte) : list word :=
  rev (fold_left extend (seq 16 48) (rev (List.map be_value (pieces 4 block)))).

Definition step (state : list word) (kw : word * word) : list word :=
  match state with
  | [a; b; c; d; e; f; g; h] =>
      let ch := N.lxor (N.land e f) (N.land (not32 e) g) in
      let maj := N.lxor (N.land a b) (N.lxor (N.land a c) (N.land b c)) in
      let t1 := add32 (add32 h (big1 e)) (add32 ch (add32 kw.1 kw.2)) in
      let t2 := add32 (big0 a) maj in
      [add32 t1 t2; a; b; c; add32 d t1; e; f; g]
  | _ => state
  end.

Definition compress (state : list word) (block : list byte) : list word :=
  zip_with add32 state
    (fold_left step (zip roots (schedule block)) state).

Definition digest (message : list byte) : list byte :=
  flat_map (be_bytes 4) (fold_left compress (pieces 64 (pad message)) initial).

End SHA2.

Module AES.
Import Bytes.

(** FIPS 197, with a 256-bit key. *)
Definition xtime (b : byte) : byte :=
  let d := N.shiftl b 1 in
  if (d <? 256)%N then d else N.lxor (N.land d 0xff) 0x1b.

(** Multiplication in GF(2^8). *)
Fixpoint gmul_bits (bits : nat) (a b : byte) : byte :=
  match bits with
  | O => 0%N
  | S bits' =>
      N.lxor (if N.odd b then a else 0%N)
             (gmul_bits bits' (xtime a) (N.shiftr b 1))
  end.

Definition gmul : byte → byte → byte := gmul_bits 8.

Fixpoint gpow (n : nat) (a : byte) : byte :=
  match n with
  | O => 1%N
  | S n' => gmul a (gpow n' a)
  end.

Definition rotl8 (x : byte) (n : N) : byte :=
  N.land (N.lor (N.shiftl x n) (N.shiftr x (8 - n))) 0xff.

(** The S-box: the inverse in the field (0 for 0), then the affine map. *)
Definition sub_byte (x : byte) : byte :=
  let i := gpow 254 x in
  N.lxor i (N.lxor (rotl8 i 1) (N.lxor (rotl8 i 2)
    (N.lxor (rotl8 i 3) (N.lxor (rotl8 i 4) 0x63)))).

Definition sbox : list byte :=
  Eval vm_compute in List.map (λ x, sub_byte (N.of_nat x)) (seq 0 256).

Definition inv_sbox : list byte :=
  Eval vm_compute in
    List.map (λ y, N.of_nat (default 0%nat
                (list_find (λ s, s = N.of_nat y) sbox ≫= λ r, Some r.1)))
             (seq 0 256).

Definition sub (x : byte) : byte := nth (N.to_nat x) sbox 0%N.
Definition inv_sub (x : byte) : byte := nth (N.to_nat x) inv_sbox 0%N.

Definition xor_bytes (a b : list byte) : list byte := zip_with N.lxor a b.

(** Key expansion: the words of the schedule, latest first, each a list
    of four bytes. *)
Definition expand (recent : list (list byte)) (i : nat) : list (list byte) :=
  let previous := nth 0 recent [] in
  let temp :=
    if (i mod 8 =? 0)%nat then
      xor_bytes (List.map sub (drop 1 previous ++ take 1 previous))
                [gpow (i / 8 - 1) 2; 0; 0; 0]%N
    else if (i mod 8 =? 4)%nat then List.map sub previous
    else previous in
  xor_bytes (nth 7 recent []) temp :: recent.

Definition round_keys (key : list byte) : list (list byte) :=
  List.map (@concat byte)
    (pieces 4 (rev (fold_left expand (seq 8 52) (rev (pieces 4 key))))).

(** The state is the block, column after column. *)
Definition shift_rows (s : list byte) : list byte :=
  List.map (λ i, nth ((i + 4 * (i mod 4)) mod 16) s 0%N) (seq 0 16).

Definition inv_shift_rows (s : list byte) : list byte :=
  List.map (λ i, nth ((i + 16 - 4 * (i mod 4)) mod 16) s 0%N) (seq 0 16).

Definition mix (m : list byte) (column : list byte) : list byte :=
  List.map (λ r,
    fold_right N.lxor 0%N
      (List.map (λ c, gmul (nth ((c + 4 - r) mod 4) m 0%N) (nth c column 0%N))
                (seq 0 4)))
    (seq 0 4).

Definition mix_columns (s : list byte) : list byte :=
  flat_map (mix [2; 3; 1; 1]%N) (pieces 4 s).

Definition inv_mix_columns (s : list byte) : list byte :=
  flat_map (mix [14; 11; 13; 9]%N) (pieces 4 s).

Definition encrypt_block (keys : list (list byte)) (block : list byte) : list byte :=
  let start := xor_bytes block (nth 0 keys []) in
  let middle :=
    fold_left (λ s k, xor_bytes (mix_columns (shift_rows (List.map sub s))) k)
              (take 13 (drop 1 keys)) start in
  xor_bytes (shift_rows (List.map sub middle)) (nth 14 keys []).

Definition decrypt_block (keys : list (list byte)) (block : list byte) : list byte :=
  let start := xor_bytes block (nth 14 keys []) in
  let middle :=
    fold_left (λ s k, inv_mix_columns
                        (xor_bytes (List.map inv_sub (inv_shift_rows s)) k))
              (rev (take 13 (drop 1 keys))) start in
  xor_bytes (List.map inv_sub (inv_shift_rows middle)) (nth 0 keys []).

(** Cipher block chaining. *)
Definition cbc_encrypt (key iv data : list byte) : list byte :=
  let keys := round_keys key in
  (fold_left (λ acc block,
     let c := encrypt_block keys (xor_bytes block acc.2) in ((acc.1 ++ c)%list, c))
     (pieces 16 data) ([], iv)).1.

Definition cbc_decrypt (key iv data : list byte) : list byte :=
  let keys := round_keys key in
  (fold_left (λ acc block,
     ((acc.1 ++ xor_bytes (decrypt_block keys block) acc.2)%list, block))
     (pieces 16 data) ([], iv)).1.

End AES.


Module Base64.
Import Bytes.

Definition alphabet : list ascii :=
  list_ascii_of_string
    "ABCDEFGHIJKLMNOPQRSTUVWXYZabcdefghijklmnopqrstuvwxyz0123456789+/".

Definition symbol (n : N) : ascii := nth (N.to_nat n) alphabet "="%char.

(** Three bytes make four symbols; a short tail is filled with [=]. *)
Definition encode_group (g : list byte) : list ascii :=
  let x := be_value (take 3 (g ++ [0; 0; 0]%N)) in
  let all := List.map (λ i, symbol (N.land (N.shiftr x (18 - 6 * i)) 63))
                      [0; 1; 2; 3]%N in
  (take (S (length g)) all ++ replicate (3 - length g) "="%char)%list.

Definition stringify (l : list byte) : string :=
  string_of_list_ascii (flat_map encode_group (pieces 3 l)).

(** The value of a symbol; a character outside the alphabet counts as 0,
    as a missing entry of the reverse map does under the bit operators. *)
Definition value_of (c : ascii) : N :=
  match list_find (λ a, a = c) alphabet with
  | Some (i, _) => N.of_nat i
  | None => 0%N
  end.

Fixpoint before_padding (l : list ascii) : list ascii :=
  match l with
  | c :: rest => if Ascii.eqb c "=" then [] else c :: before_padding rest
  | [] => []
  end.

(** Each symbol that is not the first of its group of four ends a byte. *)
Fixpoint decode_from (i : nat) (previous : N) (l : list ascii) : list byte :=
  match l with
  | c :: rest =>
      let v := value_of c in
      let r := N.of_nat (i mod 4) in
      if (i mod 4 =? 0)%nat then decode_from (S i) v rest
      else N.land (N.lor (N.shiftl previous (2 * r)) (N.shiftr v (6 - 2 * r))) 0xff
           :: decode_from (S i) v rest
  | [] => []
  end.

Definition parse (s : string) : list byte :=
  decode_from 0 0%N (before_padding (list_ascii_of_string s)).

End Base64.

Module Utf8.
Import Bytes.

Definition between (lo hi b : byte) : bool := (lo <=? b)%N && (b <=? hi)%N.
Definition continuation : byte → bool := between 0x80%N 0xbf%N.

(** RFC 3629: no overlong form, no surrogate, nothing above U+10FFFF. *)
Fixpoint well_formed (l : list byte) : bool :=
  match l with
  | [] => true
  | b0 :: rest =>
      if (b0 <? 0x80)%N then well_formed rest
      else if between 0xc2%N 0xdf%N b0 then
        match rest with
        | b1 :: r => continuation b1 && well_formed r
        | _ => false
        end
      else if between 0xe0%N 0xef%N b0 then
        match rest with
        | b1 :: b2 :: r =>
            between (if (b0 =? 0xe0)%N then 0xa0%N else 0x80%N)
                    (if (b0 =? 0xed)%N then 0x9f%N else 0xbf%N) b1
            && continuation b2 && well_formed r
        | _ => false
        end
      else if between 0xf0%N 0xf4%N b0 then
        match rest with
        | b1 :: b2 :: b3 :: r =>
            between (if (b0 =? 0xf0)%N then 0x90%N else 0x80%N)
                    (if (b0 =? 0xf4)%N then 0x8f%N else 0xbf%N) b1
            && continuation b2 && continuation b3 && well_formed r
        | _ => false
        end
      else false
  end.

End Utf8.

Module OpenSSL.
Import Bytes.

(** The key derivation of OpenSSL's [EVP_BytesToKey] with MD5 and one
    iteration: each digest covers the one before, the passphrase and the
    salt; 32 bytes of key, then 16 of initialisation vector. *)
Definition derive (passphrase : string) (salt : list byte)
  : list byte * list byte :=
  let secret := (bytes_of_string passphrase ++ salt)%list in
  let d1 := MD5.digest secret in
  let d2 := MD5.digest (d1 ++ secret)%list in
  let d3 := MD5.digest (d2 ++ secret)%list in
  ((d1 ++ d2)%list, d3).

Definition pad (data : list byte) : list byte :=
  let n := (16 - length data mod 16)%nat in
  (data ++ replicate n (N.of_nat n))%list.

(** CryptoJS's [Pkcs7.unpad] trusts the low byte of the last word that
    holds data: it shortens the [n] bytes of data by that many and checks
    nothing.  For data of whole blocks this is the last byte. *)
Definition unpad (blocks : list byte) (n : nat) : list byte :=
  take (n - N.to_nat (nth (4 * ((n - 1) / 4) + 3) blocks 0%N)) blocks.

Definition magic : list byte := bytes_of_string "Salted__".

Record CipherParams := { salt : list byte; ciphertext : list byte }.

Definition encrypt (message passphrase : string) (salt : list byte) : CipherParams :=
  let '(key, iv) := derive passphrase salt in
  {| salt := salt;
     ciphertext := AES.cbc_encrypt key iv (pad (bytes_of_string message)) |}.

Definition stringify (c : CipherParams) : string :=
  Base64.stringify (magic ++ salt c ++ ciphertext c)%list.

(** [format.OpenSSL.parse]: the salt, when the data starts with the magic
    word, and the ciphertext. *)
Definition parse (s : string) : option (list byte) * list byte :=
  let raw := Base64.parse s in
  if bool_decide (take 8 raw = magic)
  then (Some (take 8 (drop 8 raw)), drop 16 raw)
  else (None, raw).

(** What [encrypt] produces is whole blocks.  On other data the cipher
    still runs: a last block that is short is filled with zeros, and the
    output is no longer than the input. *)
Definition decrypt (data : list byte) (passphrase : string) (salt : list byte)
  : list byte :=
  let '(key, iv) := derive passphrase salt in
  let filled := (data ++ replicate ((16 - length data mod 16) mod 16) 0%N)%list in
  unpad (AES.cbc_decrypt key iv filled) (length data).

End OpenSSL.

(** ** A reference platform

    An executable instance of the three interfaces.  It shows that what
    the theorems assume of the platform can be met, and it lets the SDK run
    on concrete inputs.  The engine prints and reads compact JSON over
    integer numbers; CryptoJS is the algorithms above, drawing its random
    bytes from a list; the server is the directory and the
    content-addressed store of the specification.

    The engine is not all of JavaScript, and the runs below stay within
    what it shares with it.  Its numbers are the integers: they are
    printed in full decimal, where JavaScript turns to the exponent
    notation from 1e21 on, and multiplied exactly, where doubles round
    above 2^53.  Its JSON is the compact text that the SDK and the server
    exchange: the reader takes no white space, no fraction, no exponent
    and no escape but those of the double quote and the backslash, it
    reads leading zeros and keeps repeated keys; the printer leaves
    control characters as they are, where [JSON.stringify] escapes them.
    The text of its TypeError is the one of a property read.  The general
    theorems do not depend on any of this: they are stated for every
    engine. *)

Module Reference.

(** *** Engine *)

#[export] Instance numbers : JsNumber :=
  {| number := Z;
     number_truthy := λ z, negb (Z.eqb z 0);
     number_toString := pretty |}.

(** Integers stand for the doubles that are integers: the product of two
    of them is exact as long as it stays below 2^53. *)
#[export] Instance arithmetic : JsArithmetic :=
  {| number_of_Z := id; number_mul := Z.mul |}.

Fixpoint strip_prefix (p s : string) : option string :=
  match p, s with
  | "", _ => Some s
  | String a p', String b s' => if Ascii.eqb a b then strip_prefix p' s' else None
  | _, _ => None
  end.

Definition is_digit (c : ascii) : bool :=
  (48 <=? nat_of_ascii c)%nat && (nat_of_ascii c <=? 57)%nat.

Fixpoint span_digits (s : string) : string * string :=
  match s with
  | String c rest =>
      if is_digit c then let '(d, r) := span_digits rest in (String c d, r)
      else ("", s)
  | "" => ("", "")
  end.

Fixpoint digits_value (acc : Z) (s : string) : Z :=
  match s with
  | String c rest => digits_value (10 * acc + Z.of_nat (nat_of_ascii c - 48)) rest
  | "" => acc
  end.

(** The double quote and the backslash, the two characters a string
    literal escapes. *)
Definition double_quote : ascii := ascii_of_nat 34.
Definition backslash : ascii := ascii_of_nat 92.

Fixpoint quote_chars (s : string) : string :=
  match s with
  | String c rest =>
      if Ascii.eqb c double_quote || Ascii.eqb c backslash
      then String backslash (String c (quote_chars rest))
      else String c (quote_chars rest)
  | "" => ""
  end.

Definition quote (s : string) : string :=
  String double_quote (quote_chars s +:+ String double_quote "").

Fixpoint stringify (v : json) : string :=
  match v with
  | JNull => "null"
  | JBool true => "true"
  | JBool false => "false"
  | JNumber n => pretty (n : Z)
  | JString s => quote s
  | JArray items => "[" +:+ String.concat "," (List.map stringify items) +:+ "]"
  | JObject fields =>
      "{" +:+ String.concat ","
                (List.map (λ kv, quote (fst kv) +:+ ":" +:+ stringify (snd kv)) fields)
          +:+ "}"
  end.

(** Reads a string literal after its opening quote. *)
Fixpoint read_chars (s : string) : option (string * string) :=
  match s with
  | String c rest =>
      if Ascii.eqb c double_quote then Some ("", rest)
      else if Ascii.eqb c backslash then
        match rest with
        | String d rest' =>
            '(t, r) ← read_chars rest'; Some (String d t, r)
        | "" => None
        end
      else '(t, r) ← read_chars rest; Some (String c t, r)
  | "" => None
  end.

Definition read_string (s : string) : option (string * string) :=
  match s with
  | String c rest => if Ascii.eqb c double_quote then read_chars rest else None
  | "" => None
  end.

Fixpoint read_items (read_one : string → option (json * string))
  (fuel : nat) (s : string) : option (list json * string) :=
  match fuel with
  | O => None
  | S fuel' =>
      '(v, rest) ← read_one s;
      match rest with
      | String "," rest' =>
          '(vs, r) ← read_items read_one fuel' rest'; Some (v :: vs, r)
      | String "]" rest' => Some ([v], rest')
      | _ => None
      end
  end.

Fixpoint read_fields (read_one : string → option (json * string))
  (fuel : nat) (s : string) : option (list (string * json) * string) :=
  match fuel with
  | O => None
  | S fuel' =>
      '(k, rest) ← read_string s;
      after_colon ← strip_prefix ":" rest;
      '(v, rest') ← read_one after_colon;
      match rest' with
      | String "," rest'' =>
          '(kvs, r) ← read_fields read_one fuel' rest''; Some ((k, v) :: kvs, r)
      | String "}" rest'' => Some ([(k, v)], rest'')
      | _ => None
      end
  end.

Fixpoint read_value (fuel : nat) (s : string) : option (json * string) :=
  match fuel with
  | O => None
  | S fuel' =>
      match s with
      | String "n" _ => rest ← strip_prefix "null" s; Some (JNull, rest)
      | String "t" _ => rest ← strip_prefix "true" s; Some (JBool true, rest)
      | String "f" _ => rest ← strip_prefix "false" s; Some (JBool false, rest)
      | String "[" (String "]" rest) => Some (JArray [], rest)
      | String "[" rest =>
          '(vs, r) ← read_items (read_value fuel') fuel' rest; Some (JArray vs, r)
      | String "{" (String "}" rest) => Some (JObject [], rest)
      | String "{" rest =>
          '(kvs, r) ← read_fields (read_value fuel') fuel' rest; Some (JObject kvs, r)
      | String "-" rest =>
          match span_digits rest with
          | ("", _) => None
          | (d, r) => Some (JNumber (- digits_value 0 d)%Z, r)
          end
      | _ =>
          match read_string s, span_digits s with
          | Some (t, r), _ => Some (JString t, r)
          | None, ("", _) => None
          | None, (d, r) => Some (JNumber (digits_value 0 d), r)
          end
      end
  end.

Definition parse (s : string) : option json :=
  match read_value (S (String.length s)) s with
  | Some (v, "") => Some v
  | _ => None
  end.

(** An object whose values are all strings, and the text between its
    braces. *)
Definition members (fields : list (string * string)) : string :=
  String.concat "," (List.map (λ kv, quote kv.1 +:+ ":" +:+ quote kv.2) fields).

Definition flat (fields : list (string * string)) : json :=
  JObject (List.map (λ kv, (kv.1, JString kv.2)) fields).

#[export] Instance engine : JsEngine :=
  {| JSON_stringify := stringify;
     JSON_parse := parse;
     null_read_message := λ name,
       "Cannot read properties of null (reading '" +:+ name +:+ "')" |}.

(** *** CryptoJS *)

(** [WordArray.random(n)]: the next [n] bytes of the pool, zeros once the
    pool is empty. *)
Definition draw (n : nat) (pool : list Bytes.byte)
  : list Bytes.byte * list Bytes.byte :=
  (take n (pool ++ replicate n 0%N)%list, drop n pool).

Definition utf8_text (bytes : list Bytes.byte) : option string :=
  if Utf8.well_formed bytes then Some (Bytes.string_of_bytes bytes) else None.

(** [CryptoJS.AES.decrypt(blob, passphrase)].  A string is parsed as
    OpenSSL's format.  Any other value is taken to carry neither salt nor
    ciphertext, so that nothing is deciphered (CryptoJS would read the
    fields [salt] and [ciphertext] of an object that has them; the server
    below sends strings).  Without a salt in the data a random one is
    drawn.  The call itself does not throw; decoding its result may. *)
Definition aes_decrypt (blob : json) (passphrase : string)
  (pool : list Bytes.byte) : option (list Bytes.byte) * list Bytes.byte :=
  let '(salted, data) :=
    match blob with
    | JString s => OpenSSL.parse s
    | _ => (None, [])
    end in
  let '(salt, pool') :=
    match salted with
    | Some salt => (salt, pool)
    | None => draw 8 pool
    end in
  (Some (OpenSSL.decrypt data passphrase salt), pool').

#[export] Instance cryptojs : CryptoJS :=
  {| Entropy := list Bytes.byte;
     WordArray := list Bytes.byte;
     CipherParams := OpenSSL.CipherParams;
     WordArray_random := draw;
     WordArray_toString := Bytes.hex;
     SHA256 := λ s, SHA2.digest (Bytes.bytes_of_string s);
     AES_encrypt := λ text passphrase pool,
       let '(salt, pool') := draw 8 pool in
       (OpenSSL.encrypt text passphrase salt, pool');
     CipherParams_toString := OpenSSL.stringify;
     AES_decrypt := aes_decrypt;
     WordArray_toString_Utf8 := utf8_text |}.

(** *** Server *)

(** Modelled from the spec: the sync server, whose handlers are not among
    the SDK sources.  It is the directory service and the storage service
    of the specification's external interfaces: [setPointer] is an upsert
    on [(appId, username)], [getPointer] answers with the registered
    pointer or with none, [store] files a ciphertext under a pointer
    derived from its content and [fetch] returns it by that pointer.  The
    endpoints, their methods and the names of the fields are the ones the
    SDK uses.  A query string is split the way RFC 3986 and the URL
    standard prescribe: the fragment is dropped, pairs are separated by
    [&], a name from its value by the first [=].  Percent escapes are not
    decoded; the SDK writes none. *)
Record Server := {
  directory : gmap (string * string) json;
  blobs : gmap string string;
}.

Definition empty_server : Server := {| directory := ∅; blobs := ∅ |}.

Definition origin : string := "https://sync.example".

Fixpoint cut_at (sep : ascii) (s : string) : string * option string :=
  match s with
  | String c rest =>
      if Ascii.eqb c sep then ("", Some rest)
      else let '(before, after) := cut_at sep rest in (String c before, after)
  | "" => ("", None)
  end.

Fixpoint split_on (sep : ascii) (s : string) : list string :=
  match s with
  | String c rest =>
      if Ascii.eqb c sep then "" :: split_on sep rest
      else match split_on sep rest with
           | first :: others => String c first :: others
           | [] => [String c ""]
           end
  | "" => [""]
  end.

(** The character [c] does not occur in [s]. *)
Fixpoint absent (c : ascii) (s : string) : bool :=
  match s with
  | String x rest => negb (Ascii.eqb x c) && absent c rest
  | "" => true
  end.

Definition query_pairs (query : string) : list (string * string) :=
  List.map (λ pair, let '(name, v) := cut_at "=" pair in (name, default "" v))
           (split_on "&" query).

Fixpoint param (name : string) (pairs : list (string * string)) : option string :=
  match pairs with
  | (k, v) :: rest => if String.eqb k name then Some v else param name rest
  | [] => None
  end.

Definition respond (v : json) : FetchOutcome :=
  FetchResponse {| ok := true; statusText := "OK"; response_json := BodyOk v |}.

Definition refuse (status reason : string) : FetchOutcome :=
  FetchResponse {| ok := false; statusText := status;
                   response_json := BodyOk (JObject [("message", JString reason)]) |}.

Definition content_pointer (ciphertext : string) : string :=
  "Qm" +:+ Bytes.hex (Bytes.bytes_of_string ciphertext).

(** Modelled from the spec: [setPointer(appId, username, pointer)], an
    upsert, behind [POST /api/set-hash]. *)
Definition set_hash (payload : option string) (s : Server) : FetchOutcome * Server :=
  match payload ≫= parse with
  | Some (JObject fields) =>
      match assoc "app_id" fields, assoc "username" fields, assoc "hash" fields with
      | Some (JString app), Some (JString user), Some pointer =>
          (respond (JObject [("success", JBool true)]),
           {| directory := <[(app, user) := pointer]> (directory s);
              blobs := blobs s |})
      | _, _, _ => (refuse "Bad Request" "Missing fields", s)
      end
  | _ => (refuse "Bad Request" "Invalid JSON", s)
  end.

(** Modelled from the spec: [store(ciphertext)], which answers with the
    content pointer, behind [POST /api/backup]. *)
Definition backup (payload : option string) (s : Server) : FetchOutcome * Server :=
  match payload ≫= parse with
  | Some (JObject fields) =>
      match assoc "encryptedData" fields with
      | Some (JString ciphertext) =>
          let pointer := content_pointer ciphertext in
          (respond (JObject [("ipfsHash", JString pointer)]),
           {| directory := directory s;
              blobs := <[pointer := ciphertext]> (blobs s) |})
      | _ => (refuse "Bad Request" "Missing fields", s)
      end
  | _ => (refuse "Bad Request" "Invalid JSON", s)
  end.

(** Modelled from the spec: [getPointer(appId, username)], behind
    [GET /api/get-hash].  An unknown pair is answered without a pointer,
    which is what makes [restoreData] report NoBackupFound for an unknown
    username, as the specification has it. *)
Definition get_hash (pairs : list (string * string)) (s : Server) : FetchOutcome :=
  match param "app_id" pairs, param "username" pairs with
  | Some app, Some user =>
      respond (JObject [("ipfsHash", default JNull (directory s !! (app, user)))])
  | _, _ => refuse "Bad Request" "Missing parameters"
  end.

(** Modelled from the spec: [fetch(contentPointer)], behind
    [GET /api/restore]; the blob comes in the field [kaironBackup], which
    [restoreData] reads first. *)
Definition restore (pairs : list (string * string)) (s : Server) : FetchOutcome :=
  match param "hash" pairs ≫= λ pointer, blobs s !! pointer with
  | Some ciphertext => respond (JObject [("kaironBackup", JString ciphertext)])
  | None => refuse "Not Found" "No such content"
  end.

(** Modelled from the spec: the server as [fetch] reaches it.  Another
    origin cannot be reached; a request is routed by its path and method. *)
Definition serve (url : string) (options : RequestInit) (s : Server)
  : FetchOutcome * Server :=
  match strip_prefix origin url with
  | None => (FetchRejected "Failed to fetch", s)
  | Some target =>
      let '(route, query) := cut_at "?" (fst (cut_at "#" target)) in
      let pairs := query_pairs (default "" query) in
      match method options with
      | Some "POST" =>
          if String.eqb route "/api/set-hash" then set_hash (body options) s
          else if String.eqb route "/api/backup" then backup (body options) s
          else (refuse "Not Found" "No such route", s)
      | None =>
          if String.eqb route "/api/get-hash" then (get_hash pairs s, s)
          else if String.eqb route "/api/restore" then (restore pairs s, s)
          else (refuse "Not Found" "No such route", s)
      | Some _ => (refuse "Method Not Allowed" "Method not allowed", s)
      end
  end.

#[export] Instance server : SyncServer :=
  {| ServerState := Server; fetch := serve |}.

(** The random bytes of the runs below: 0, 1, 2, ... *)
Definition pool : list Bytes.byte := List.map N.of_nat (seq 0 64).

(** A fresh device talking to a fresh server. *)
Definition fresh (app : string) : World :=
  {| appId := app; apiBaseUrl := origin; users := ∅; currentUser := None;
     remote := empty_server; entropy := pool; log := [] |}.

(** *** Devices to run the SDK on *)

Definition alice_row : User :=
  {| username := "alice"; hashedPassword := Some (hashPassword "pw1");
     recoveryKey := "00112233445566778899aabbccddeeff";
     backupHash := JString "QmAlice" |}.

(** A device that holds a row for alice, who is logged in. *)
Definition device : World :=
  {| appId := "app"; apiBaseUrl := origin;
     users := {[ "alice" := alice_row ]}; currentUser := Some "alice";
     remote := empty_server; entropy := pool; log := [] |}.



(** A browser that registers every periodic sync it is asked for, one
    whose page has no active service worker, and one that turns the
    registration down. *)
Definition willing : Browser :=
  {| serviceWorker := Some (Some {| periodicSync := Some (λ _, None) |});
     sync_requests := []; console := [] |}.

Definition workerless : Browser :=
  {| serviceWorker := Some None; sync_requests := []; console := [] |}.

Definition unwilling : Browser :=
  {| serviceWorker :=
       Some (Some {| periodicSync := Some (λ _, Some "Permission denied.") |});
     sync_requests := []; console := [] |}.

(** The world a sign-up on a fresh device leaves, and the recovery key it
    returned (the empty string if it failed). *)
Definition signed_up (name password : string) : World :=
  (signUp name password (fresh "app")).2.

Definition key_of (name password : string) : string :=
  match (signUp name password (fresh "app")).1 with
  | Ok key => key
  | Throw _ => ""
  end.

(** A day of calls on a fresh device, and alice logged in after her
    sign-up. *)
Definition session : list Call :=
  [CallSignUp "alice" "pw1"; CallLogin "alice" "pw1";
   CallBackupData (JObject [("notes", JString "a")]); CallLogout;
   CallRestoreData "alice" "000102030405060708090a0b0c0d0e0f";
   CallLogin "alice" "pw1"].


End Reference.

(** ** Properties of the SDK, for every engine, cipher and server *)

(** Closes a branch of a run once the equation of the run is down to a pair. *)
Ltac settle Hrun :=
  inversion Hrun; subst; simpl; rewrite <- ?app_assoc; split_and?; done.

Section Properties.
Context `{JsNumber} `{!JsEngine} `{!CryptoJS} `{!SyncServer}.

Implicit Types (w : World) (e : Error) (u p k : string).

(** *** Stepping through a call *)

Lemma bind_run {A B : Type} (m : M A) (f : A → M B) w :
  (m ≫= f) w =
  match m w with
  | (Ok a, w') => f a w'
  | (Throw e, w') => (Throw e, w')
  end.
Proof. reflexivity. Qed.

Lemma _request_world endpoint options w :
  (_request endpoint options w).2 = sent endpoint options w.
Proof.
  unfold _request, sent.
  destruct (fetch _ _ _) as [[cause|r] s]; simpl; [done|].
  destruct (ok r); simpl.
  - by destruct (response_json r).
  - destruct (response_json r) as [v|cause]; [|done].
    by destruct (get_prop v "message").
Qed.

(** A request yields the body of an accepted reply, and otherwise throws
    the wrapped network error, or the unwrapped SyntaxError of a body that
    is not JSON. *)
Lemma _request_result endpoint options w :
  match accepted (fetch (apiBaseUrl w +:+ endpoint) options (remote w)).1 with
  | Some v => (_request endpoint options w).1 = Ok v
  | None =>
      ∃ cause, (_request endpoint options w).1 = Throw (NetworkOrApiError cause)
               ∨ (_request endpoint options w).1 = Throw (SyntaxError cause)
  end.
Proof.
  unfold _request, accepted, NetworkOrApiError.
  destruct (fetch _ _ _) as [[cause|r] s]; simpl; [by eauto|].
  destruct (ok r); simpl.
  - destruct (response_json r); simpl; eauto.
  - destruct (response_json r) as [v|cause]; simpl; [|by eauto].
    destruct (get_prop v "message"); simpl; eauto.
Qed.

Lemma _request_cases endpoint options w :
  (∃ v, accepted (fetch (apiBaseUrl w +:+ endpoint) options (remote w)).1 = Some v
        ∧ _request endpoint options w = (Ok v, sent endpoint options w))
  ∨ (∃ e, accepted (fetch (apiBaseUrl w +:+ endpoint) options (remote w)).1 = None
          ∧ _request endpoint options w = (Throw e, sent endpoint options w)
          ∧ ((∃ cause, e = NetworkOrApiError cause) ∨ unwrapped e)).
Proof.
  pose proof (_request_result endpoint options w) as Hr.
  pose proof (_request_world endpoint options w) as Hw.
  destruct (_request endpoint options w) as [r w']; simpl in *; subst w'.
  destruct (accepted _) as [v|].
  - left. exists v. by subst r.
  - right. destruct Hr as [cause [-> | ->]].
    + eexists; split_and!; [done..|]. left; eauto.
    + eexists; split_and!; [done..|]. by right.
Qed.

(** *** [login] *)

Lemma login_run u p w :
  login u p w =
  match users w !! u with
  | Some r =>
      if bool_decide (hashedPassword r = Some (hashPassword p))
      then (Ok true, set_currentUser (Some u) w)
      else (Ok false, w)
  | None => (Ok false, w)
  end.
Proof.
  unfold login. rewrite bind_run. unfold db_users_get, this.
  destruct (users w !! u) as [r|]; [|done].
  by destruct (bool_decide _).
Qed.

(** C5, as amended: [login] never throws.  Without a local row for the
    username it returns false, the same answer as for a wrong password, and
    changes nothing; with a row it returns true exactly when the hash of the
    password is the stored one. *)
Theorem login_answer u p w :
  (login u p w).1 =
  Ok match users w !! u with
     | Some r => bool_decide (hashedPassword r = Some (hashPassword p))
     | None => false
     end
  ∧ (users w !! u = None → login u p w = (Ok false, w)).
Proof.
  rewrite login_run. destruct (users w !! u) as [r|]; [|done].
  split; [|done]. by destruct (bool_decide _).
Qed.

(** C10: a login that does not return true leaves the session, and the
    whole world with it, as it was. *)
Theorem login_failure_keeps_session u p w :
  (login u p w).1 ≠ Ok true →
  currentUser (login u p w).2 = currentUser w ∧ (login u p w).2 = w.
Proof.
  rewrite login_run. destruct (users w !! u) as [r|]; [|done].
  by destruct (bool_decide _).
Qed.

Lemma bind_ok {A B : Type} (m : M A) (f : A → M B) w (b : B) w' :
  (m ≫= f) w = (Ok b, w') →
  ∃ a w1, m w = (Ok a, w1) ∧ f a w1 = (Ok b, w').
Proof.
  rewrite bind_run. destruct (m w) as [[a|e] w1]; [eauto|done].
Qed.

Lemma require_run (found : value) (message : string) w :
  require found message w =
  match found with
  | Some h => if truthy h then (Ok h, w) else (Throw (PortIDError message), w)
  | None => (Throw (PortIDError message), w)
  end.
Proof. destruct found as [h|]; simpl; [|done]. by destruct (truthy h). Qed.

(** *** [backupData] *)


(** *** [signUp] *)

(** The row [signUp] files once the remote steps are through. *)
Lemma db_users_add_fresh (record : User) w :
  users w !! username record = None →
  db_users_add record w =
  (Ok (), set_users (insert (username record) record)
            (record_event (EvAdd record) w)).
Proof.
  intros Hfresh. unfold db_users_add. rewrite bind_run.
  unfold db_users_get, this. by rewrite Hfresh.
Qed.


(** *** [restoreData] *)

(** Every run of [restoreData], by the replies of the server. *)
Lemma restoreData_run u k w :
  let run := restoreData u k w in
  let lookup := EvFetch (lookup_url w u) no_options in
  let looked := fetch (lookup_url w u) no_options (remote w) in
  match accepted looked.1 with
  | None =>
      (∃ e, run.1 = Throw e ∧ ((∃ cause, e = NetworkOrApiError cause) ∨ unwrapped e))
      ∧ log run.2 = (log w ++ [lookup])%list ∧ users run.2 = users w
  | Some directory =>
      match get_prop directory "ipfsHash" with
      | ReadThrows cause =>
          run.1 = Throw (TypeError cause)
          ∧ log run.2 = (log w ++ [lookup])%list ∧ users run.2 = users w
      | ReadValue found =>
          match keep_truthy found with
          | None =>
              run.1 = Throw NoBackupFound
              ∧ log run.2 = (log w ++ [lookup])%list ∧ users run.2 = users w
          | Some h =>
              let download := EvFetch (fetch_url w h) no_options in
              let fetched := fetch (fetch_url w h) no_options looked.2 in
              match accepted fetched.1 with
              | None =>
                  (∃ e, run.1 = Throw e
                        ∧ ((∃ cause, e = NetworkOrApiError cause) ∨ unwrapped e))
                  ∧ log run.2 = (log w ++ [lookup; download])%list
                  ∧ users run.2 = users w
              | Some reply =>
                  match backup_blob reply with
                  | ReadThrows cause =>
                      run.1 = Throw (TypeError cause)
                      ∧ log run.2 = (log w ++ [lookup; download])%list
                      ∧ users run.2 = users w
                  | ReadValue blob =>
                      match keep_truthy blob with
                      | None =>
                          run.1 = Throw BlobUnavailable
                          ∧ log run.2 = (log w ++ [lookup; download])%list
                          ∧ users run.2 = users w
                      | Some b =>
                          match (decryptData b k (entropy w)).1 with
                          | JNull =>
                              run.1 = Throw InvalidRecoveryKey
                              ∧ log run.2 = (log w ++ [lookup; download])%list
                              ∧ users run.2 = users w
                          | d =>
                              run.1 = Ok d
                              ∧ log run.2 =
                                (log w ++ [lookup; download;
                                           EvPut (restored_record u k h)])%list
                              ∧ users run.2 =
                                <[u := restored_record u k h]> (users w)
                          end
                      end
                  end
              end
          end
      end
  end.
Proof.
  intros run. subst run.
  destruct (restoreData u k w) as [r w'] eqn:Hrun. cbn [fst snd]. cbn zeta.
  unfold restoreData in Hrun.
  rewrite bind_run in Hrun. unfold this at 1 in Hrun. rewrite bind_run in Hrun.
  unfold lookup_url, fetch_url.
  set (query := "/api/get-hash?app_id=" +:+ appId w +:+ "&username=" +:+ u) in *.
  destruct (_request_cases query no_options w)
    as [(dir & Hacc1 & Hreq1)|(e & Hacc1 & Hreq1 & Hkind)];
    rewrite Hreq1 in Hrun; rewrite Hacc1;
    [|inversion Hrun; subst; simpl; split_and!; eauto].
  set (w1 := sent query no_options w) in *.
  rewrite bind_run in Hrun. unfold read, lift in Hrun.
  destruct (get_prop dir "ipfsHash") as [cause|found]; [settle Hrun|].
  unfold mret at 1, M_ret at 1 in Hrun.
  rewrite bind_run, require_run in Hrun. unfold keep_truthy.
  destruct found as [h|]; simpl; [destruct (truthy h)|]; try (settle Hrun).
  rewrite bind_run in Hrun.
  set (path := "/api/restore?hash=" +:+ ToString h) in *.
  destruct (_request_cases path no_options w1)
    as [(reply & Hacc2 & Hreq2)|(e & Hacc2 & Hreq2 & Hkind)];
    simpl in Hacc2; rewrite Hreq2 in Hrun; rewrite Hacc2;
    [|inversion Hrun; subst; simpl; rewrite <- ?app_assoc; split_and!; eauto].
  rewrite bind_run in Hrun. unfold lift in Hrun.
  destruct (backup_blob reply) as [cause|blob]; [settle Hrun|].
  unfold mret at 1, M_ret at 1 in Hrun.
  rewrite bind_run, require_run in Hrun.
  destruct blob as [b|]; simpl; [destruct (truthy b)|]; try (settle Hrun).
  rewrite bind_run in Hrun. unfold random at 1 in Hrun.
  change (entropy (sent path no_options w1)) with (entropy w) in Hrun.
  destruct (decryptData b k (entropy w)) as [d pool'].
  unfold db_users_put in Hrun.
  destruct d; settle Hrun.
Qed.

(** A row without a password hash admits no password. *)
Lemma login_without_password u p w row :
  users w !! u = Some row → hashedPassword row = None →
  login u p w = (Ok false, w).
Proof. intros Hrow Hnone. rewrite login_run, Hrow, Hnone. done. Qed.



(** C8: a successful [restoreData] returns what [decryptData] made of the
    fetched blob under the supplied key, and files (or overwrites) the row
    of the username with that key, the fetched pointer and no password
    hash.  While the row has no password hash, [login] returns false for
    every password. *)
Theorem restoreData_success u k w d :
  (restoreData u k w).1 = Ok d →
  let after := (restoreData u k w).2 in
  let looked := fetch (lookup_url w u) no_options (remote w) in
  ∃ directory h reply b,
    accepted looked.1 = Some directory
    ∧ pointer_in directory = Some h
    ∧ accepted (fetch (fetch_url w h) no_options looked.2).1 = Some reply
    ∧ blob_in reply = Some b
    ∧ d = (decryptData b k (entropy w)).1
    ∧ users after = <[u := restored_record u k h]> (users w)
    ∧ (∀ p, login u p after = (Ok false, after))
    ∧ (∀ p w2 row, users w2 !! u = Some row → hashedPassword row = None →
               login u p w2 = (Ok false, w2)).
Proof.
  intros Hok. cbn zeta.
  pose proof (restoreData_run u k w) as Hrun. cbn zeta in Hrun.
  rewrite Hok in Hrun.
  destruct (accepted _) as [directory|] eqn:Hlooked;
    [|by destruct Hrun as ((e & He & _) & _)].
  assert (∀ o, match get_prop directory "ipfsHash" with
               | ReadThrows _ => None
               | ReadValue found => keep_truthy found
               end = o → pointer_in directory = o) as Hpointer by done.
  destruct (get_prop directory "ipfsHash") as [cause|found];
    [by destruct Hrun|].
  destruct (keep_truthy found) as [h|]; [|by destruct Hrun].
  destruct (accepted (fetch (fetch_url w h) _ _).1) as [reply|] eqn:Hfetched;
    [|by destruct Hrun as ((e & He & _) & _)].
  assert (∀ o, match backup_blob reply with
               | ReadThrows _ => None
               | ReadValue found => keep_truthy found
               end = o → blob_in reply = o) as Hblob by done.
  destruct (backup_blob reply) as [cause|blob]; [by destruct Hrun|].
  destruct (keep_truthy blob) as [b|]; [|by destruct Hrun].
  exists directory, h, reply, b.
  assert (Ok d = Ok (decryptData b k (entropy w)).1
          ∧ users (restoreData u k w).2 = <[u := restored_record u k h]> (users w))
    as [Hd Husers].
  { destruct (decryptData b k (entropy w)).1; destruct Hrun as (He & _ & Hu);
      done. }
  split_and!; [done|by apply Hpointer|done|by apply Hblob|congruence|done| |].
  - intros p. apply login_without_password with (row := restored_record u k h).
    + rewrite Husers. apply lookup_insert_eq.
    + done.
  - intros p w2 row. apply login_without_password.
Qed.

(** *** [signUp] on a taken username *)

(** C4, as amended: with a local row for the username, [signUp] fails
    before any effect: the world, with its rows, its session, the server
    and the log of requests, is what it was.  The failure is DuplicateUser
    when the username and the password are both non-empty; an empty one
    is rejected first, as missing credentials. *)
Theorem signUp_existing_user u p w row :
  users w !! u = Some row →
  signUp u p w =
  (Throw (if String.eqb u "" || String.eqb p ""
          then MissingCredentials else DuplicateUser), w).
Proof.
  intros Hrow. unfold signUp.
  destruct (String.eqb u "" || String.eqb p ""); [done|].
  rewrite bind_run. unfold db_users_get, this. by rewrite Hrow.
Qed.

(** *** [encryptData] and [decryptData] *)

Lemma decryptData_run (blob : json) k (pool : Entropy) :
  (decryptData blob k pool).1 =
  match (AES_decrypt blob k pool).1 ≫= WordArray_toString_Utf8 with
  | Some text =>
      if String.eqb text "" then JNull else default JNull (JSON_parse text)
  | None => JNull
  end.
Proof.
  unfold decryptData, decryptData_try.
  destruct (AES_decrypt blob k pool) as [bytes pool']; simpl.
  destruct (bytes ≫= WordArray_toString_Utf8) as [text|]; [|done].
  destruct (String.eqb text ""); [done|].
  by destruct (JSON_parse text).
Qed.

(** C2: decrypting what [encryptData] made of a payload, under the same
    key, gives the payload back, for a payload that [JSON.parse] reads
    back from its [JSON.stringify] text and a key under which CryptoJS
    deciphers what it enciphered. *)
Theorem decryptData_encryptData (P : json) k (pool pool' : Entropy) :
  serializable P →
  JSON_parse "" = None →
  deciphers (JSON_stringify P) k pool pool' →
  (decryptData (JString (encryptData P k pool).1) k pool').1 = P.
Proof.
  unfold serializable, deciphers, encryptData. intros Hjson Hempty Hkey.
  rewrite decryptData_run.
  destruct (AES_encrypt (JSON_stringify P) k pool) as [c pool''].
  simpl in *. rewrite Hkey.
  destruct (String.eqb_spec (JSON_stringify P) "") as [Heq|_].
  - rewrite Heq in Hjson. congruence.
  - by rewrite Hjson.
Qed.

(** *** The steps of a run, as equations *)

Lemma ret_run {A : Type} (a : A) (w : World) : mret (M := M) a w = (Ok a, w).
Proof. reflexivity. Qed.

Lemma this_run {A : Type} (field : World → A) (w : World) :
  this field w = (Ok (field w), w).
Proof. reflexivity. Qed.

Lemma random_run {A : Type} (f : Entropy → A * Entropy) (w : World) (a : A)
  (e' : Entropy) :
  f (entropy w) = (a, e') → random f w = (Ok a, set_entropy e' w).
Proof. intros Hf. unfold random. by rewrite Hf. Qed.

Lemma db_users_get_run (key : string) (w : World) :
  db_users_get key w = (Ok (users w !! key), w).
Proof. reflexivity. Qed.

Lemma db_users_put_run (record : User) (w : World) :
  db_users_put record w
  = (Ok (), set_users (insert (username record) record)
              (record_event (EvPut record) w)).
Proof. reflexivity. Qed.

Lemma db_users_update_run (key : string) (newHash : json) (w : World) :
  db_users_update key newHash w
  = (Ok (), set_users (alter (with_backupHash newHash) key)
              (record_event (EvUpdate key newHash) w)).
Proof. reflexivity. Qed.

Lemma read_first (k : string) (v : json) (rest : list (string * json)) (w : World) :
  read (JObject ((k, v) :: rest)) k w = (Ok (Some v), w).
Proof. unfold read. cbn [get_prop assoc]. by rewrite String.eqb_refl. Qed.

Lemma lift_value (x : value) (w : World) : lift (ReadValue x) w = (Ok x, w).
Proof. reflexivity. Qed.

Lemma ToString_string (s : string) : ToString (JString s) = s.
Proof. reflexivity. Qed.

(** *** Further properties *)

(** [backupData] without a session fails as NotLoggedIn before any effect:
    no request is sent. *)
Theorem backupData_logged_out data w :
  logged_in (currentUser w) = None →
  backupData data w = (Throw NotLoggedIn, w).
Proof.
  intros Hout. unfold backupData. rewrite bind_run. unfold this.
  by rewrite Hout.
Qed.

(** A successful [login] makes the username the current user and changes
    nothing else. *)
Theorem login_success_sets_session u p w :
  (login u p w).1 = Ok true →
  (login u p w).2 = set_currentUser (Some u) w.
Proof.
  rewrite login_run. destruct (users w !! u) as [r|]; [|done].
  by destruct (bool_decide _).
Qed.

(** After a successful [signUp], a [login] with the same username and
    password returns true. *)
Theorem login_after_signUp u p w key :
  (signUp u p w).1 = Ok key →
  (login u p (signUp u p w).2).1 = Ok true.
Proof.
  destruct (signUp u p w) as [r w'] eqn:Hrun. cbn [fst snd]. intros ->.
  unfold signUp in Hrun.
  destruct (String.eqb u "" || String.eqb p ""); [done|].
  apply bind_ok in Hrun as (existing & w1 & _ & Hrun).
  destruct existing; [done|].
  apply bind_ok in Hrun as (key' & w2 & _ & Hrun).
  apply bind_ok in Hrun as (app & w3 & _ & Hrun).
  apply bind_ok in Hrun as (claimed & w4 & _ & Hrun).
  apply bind_ok in Hrun as (ciphertext & w5 & _ & Hrun).
  apply bind_ok in Hrun as (stored & w6 & _ & Hrun).
  apply bind_ok in Hrun as (found & w7 & _ & Hrun).
  apply bind_ok in Hrun as (h & w8 & _ & Hrun).
  apply bind_ok in Hrun as (app' & w9 & _ & Hrun).
  apply bind_ok in Hrun as (registered & w10 & _ & Hrun).
  apply bind_ok in Hrun as ([] & w11 & Hadd & Hrun).
  inversion Hrun; subst. clear Hrun.
  unfold db_users_add in Hadd.
  apply bind_ok in Hadd as (taken & w12 & Hget & Hadd).
  destruct taken; [done|]. inversion Hget; subst. inversion Hadd; subst.
  rewrite login_run. cbn [users set_users username].
  rewrite lookup_insert_eq. cbn [hashedPassword].
  by rewrite bool_decide_eq_true_2.
Qed.

(** What [_request] makes of each outcome of [fetch]: the body of a reply
    with an ok status; the wrapped network error when [fetch] rejects or
    the status is not ok, whatever the body; and, unwrapped, the
    SyntaxError of an ok reply whose body is not JSON, since
    [return response.json()] is not awaited inside the [try]. *)
Theorem _request_outcomes endpoint options w :
  match (fetch (apiBaseUrl w +:+ endpoint) options (remote w)).1 with
  | FetchRejected cause =>
      (_request endpoint options w).1 = Throw (NetworkOrApiError cause)
  | FetchResponse r =>
      if ok r then
        match response_json r with
        | BodyOk v => (_request endpoint options w).1 = Ok v
        | BodyBad cause =>
            (_request endpoint options w).1 = Throw (SyntaxError cause)
        end
      else
        ∃ cause, (_request endpoint options w).1 = Throw (NetworkOrApiError cause)
  end
  ∧ users (_request endpoint options w).2 = users w
  ∧ currentUser (_request endpoint options w).2 = currentUser w
  ∧ log (_request endpoint options w).2
    = (log w ++ [EvFetch (apiBaseUrl w +:+ endpoint) options])%list.
Proof.
  split; [|by rewrite _request_world].
  unfold _request, NetworkOrApiError.
  destruct (fetch _ _ _) as [[cause|r] s]; simpl; [done|].
  destruct (ok r); simpl.
  - by destruct (response_json r).
  - destruct (response_json r) as [v|cause]; simpl; [|by eauto].
    destruct (get_prop v "message"); simpl; eauto.
Qed.

(** *** Frames: what the steps of a call leave alone *)

Lemma requests_app (l1 l2 : list Event) :
  requests (l1 ++ l2) = (requests l1 ++ requests l2)%list.
Proof. apply omap_app. Qed.

Lemma preserves_ret `{!LocalFrame R} {A : Type} (a : A) : preserves R (mret a).
Proof. intros w. apply frame_refl. Qed.

Lemma preserves_throw `{!LocalFrame R} {A : Type} e :
  preserves R (throw (A := A) e).
Proof. intros w. apply frame_refl. Qed.

Lemma preserves_this `{!LocalFrame R} {A : Type} (field : World → A) :
  preserves R (this field).
Proof. intros w. apply frame_refl. Qed.

Lemma preserves_bind `{!LocalFrame R} {A B : Type} (m : M A) (f : A → M B) :
  preserves R m → (∀ a, preserves R (f a)) → preserves R (m ≫= f).
Proof.
  intros Hm Hf w. rewrite bind_run. specialize (Hm w).
  destruct (m w) as [[a|e] w1]; cbn [snd] in *; [|done].
  eapply frame_trans; [done|apply Hf].
Qed.

Lemma preserves_after `{!LocalFrame R} {A B : Type} (m : M A) (f : A → M B) w :
  (∀ a, preserves R (f a)) → R (m w).2 ((m ≫= f) w).2.
Proof.
  intros Hf. rewrite bind_run. destruct (m w) as [[a|e] w1]; cbn [snd].
  - apply Hf.
  - apply frame_refl.
Qed.

Lemma preserves_random `{!LocalFrame R} {A : Type} (f : Entropy → A * Entropy) :
  preserves R (random f).
Proof.
  intros w. unfold random. destruct (f (entropy w)). apply frame_entropy.
Qed.

Lemma preserves__request `{!LocalFrame R} `{!AllowsRequest R} endpoint options :
  preserves R (_request endpoint options).
Proof. intros w. rewrite _request_world. apply allows_request. Qed.

Lemma preserves_require `{!LocalFrame R} found message :
  preserves R (require found message).
Proof. intros w. rewrite require_run. repeat case_match; apply frame_refl. Qed.

Lemma preserves_lift `{!LocalFrame R} r : preserves R (lift r).
Proof. intros w. destruct r; apply frame_refl. Qed.

Lemma preserves_db_users_get `{!LocalFrame R} key : preserves R (db_users_get key).
Proof. intros w. apply frame_refl. Qed.

Lemma preserves_db_users_add `{!LocalFrame R} `{!AllowsAdd R} record :
  preserves R (db_users_add record).
Proof.
  intros w. unfold db_users_add. rewrite bind_run, db_users_get_run.
  destruct (users w !! username record) eqn:Hfresh; [apply frame_refl|].
  apply (frame_trans _ (record_event (EvAdd record) w));
    [by apply frame_event|by apply allows_add].
Qed.

Lemma preserves_db_users_put `{!LocalFrame R} `{!AllowsPut R} record :
  hashedPassword record = None → preserves R (db_users_put record).
Proof.
  intros Hnone w. rewrite db_users_put_run. cbn [snd].
  apply (frame_trans _ (record_event (EvPut record) w));
    [by apply frame_event|by apply allows_put].
Qed.

Lemma preserves_db_users_update `{!LocalFrame R} `{!AllowsUpdate R} key h :
  preserves R (db_users_update key h).
Proof.
  intros w. rewrite db_users_update_run. cbn [snd].
  apply (frame_trans _ (record_event (EvUpdate key h) w));
    [by apply frame_event|apply allows_update].
Qed.

(** Splits a call into its steps. *)
Ltac frame :=
  repeat first
    [ apply preserves_db_users_get | apply preserves_db_users_add
    | apply preserves_db_users_put; [done] | apply preserves_db_users_update
    | apply preserves_ret | apply preserves_throw | apply preserves_this
    | apply preserves_random | apply preserves__request
    | apply preserves_require | apply preserves_lift
    | progress unfold read
    | apply preserves_bind; [|intros ?]
    | case_match ].

Lemma preserves_signUp `{!LocalFrame R} `{!AllowsRequest R} `{!AllowsAdd R} u p :
  preserves R (signUp u p).
Proof. unfold signUp. frame. Qed.

Lemma preserves_backupData `{!LocalFrame R} `{!AllowsRequest R}
  `{!AllowsUpdate R} data :
  preserves R (backupData data).
Proof. unfold backupData. frame. Qed.

Lemma preserves_restoreData `{!LocalFrame R} `{!AllowsRequest R}
  `{!AllowsPut R} u k :
  preserves R (restoreData u k).
Proof. unfold restoreData. frame. Qed.

#[local] Instance same_instance_frame : LocalFrame same_instance.
Proof.
  split; unfold same_instance; cbn; try done.
  intros w1 w2 w3 (? & ? & ?) (? & ? & ?). split_and!; congruence.
Qed.
#[local] Instance same_instance_request : AllowsRequest same_instance.
Proof. done. Qed.
#[local] Instance same_instance_add : AllowsAdd same_instance.
Proof. done. Qed.
#[local] Instance same_instance_put : AllowsPut same_instance.
Proof. done. Qed.
#[local] Instance same_instance_update : AllowsUpdate same_instance.
Proof. done. Qed.

#[local] Instance keeps_rows_frame : LocalFrame keeps_rows.
Proof. split; unfold keeps_rows; intros; cbn; set_solver. Qed.
#[local] Instance keeps_rows_request : AllowsRequest keeps_rows.
Proof. by unfold AllowsRequest, keeps_rows. Qed.
#[local] Instance keeps_rows_add : AllowsAdd keeps_rows.
Proof.
  unfold AllowsAdd, keeps_rows. intros. cbn. rewrite dom_insert. set_solver.
Qed.
#[local] Instance keeps_rows_put : AllowsPut keeps_rows.
Proof.
  unfold AllowsPut, keeps_rows. intros. cbn. rewrite dom_insert. set_solver.
Qed.
#[local] Instance keeps_rows_update : AllowsUpdate keeps_rows.
Proof. unfold AllowsUpdate, keeps_rows. intros. cbn. by rewrite dom_alter. Qed.

#[local] Instance keeps_credentials_frame : LocalFrame keeps_credentials.
Proof.
  split; unfold keeps_credentials; cbn; eauto.
  intros w1 w2 w3 H12 H23 name row Hrow.
  destruct (H12 _ _ Hrow) as (row2 & Hrow2 & Hp & Hk).
  destruct (H23 _ _ Hrow2) as (row3 & Hrow3 & Hp' & Hk').
  exists row3. split_and!; [done|congruence..].
Qed.
#[local] Instance keeps_credentials_request : AllowsRequest keeps_credentials.
Proof. unfold AllowsRequest, keeps_credentials. cbn. eauto. Qed.
#[local] Instance keeps_credentials_add : AllowsAdd keeps_credentials.
Proof.
  intros w row Hfresh name old Hold. cbn. exists old.
  rewrite lookup_insert_ne; [done|]. intros <-. congruence.
Qed.
#[local] Instance keeps_credentials_update : AllowsUpdate keeps_credentials.
Proof.
  intros w key h name old Hold. cbn.
  destruct (decide (key = name)) as [->|Hne].
  - exists (with_backupHash h old). by rewrite lookup_alter_eq, Hold.
  - exists old. by rewrite lookup_alter_ne.
Qed.

#[local] Instance log_grows_frame : LocalFrame log_grows.
Proof.
  split; unfold log_grows; cbn; try done.
  - intros w1 w2 w3. apply transitivity.
  - intros w ev _. by apply prefix_app_r.
Qed.
#[local] Instance log_grows_request : AllowsRequest log_grows.
Proof. intros w s url options. by apply prefix_app_r. Qed.
#[local] Instance log_grows_add : AllowsAdd log_grows.
Proof. by unfold AllowsAdd, log_grows. Qed.
#[local] Instance log_grows_put : AllowsPut log_grows.
Proof. by unfold AllowsPut, log_grows. Qed.
#[local] Instance log_grows_update : AllowsUpdate log_grows.
Proof. by unfold AllowsUpdate, log_grows. Qed.

#[local] Instance stays_local_frame : LocalFrame stays_local.
Proof.
  split; unfold stays_local; try done.
  - intros w1 w2 w3 [? ?] [? ?]. split; congruence.
  - intros w ev Hev. split; [done|]. cbn [log record_event].
    by rewrite requests_app, Hev, app_nil_r.
Qed.
#[local] Instance stays_local_add : AllowsAdd stays_local.
Proof. by unfold AllowsAdd, stays_local. Qed.
#[local] Instance stays_local_put : AllowsPut stays_local.
Proof. by unfold AllowsPut, stays_local. Qed.

#[local] Instance keeps_without_password_frame name :
  LocalFrame (keeps_without_password name).
Proof. split; unfold keeps_without_password; cbn; eauto. Qed.
#[local] Instance keeps_without_password_request name :
  AllowsRequest (keeps_without_password name).
Proof. by unfold AllowsRequest, keeps_without_password. Qed.
#[local] Instance keeps_without_password_add name :
  AllowsAdd (keeps_without_password name).
Proof.
  intros w row Hfresh (old & Hold & Hnone). exists old.
  cbn [users set_users]. rewrite lookup_insert_ne; [done|]. intros <-. congruence.
Qed.
#[local] Instance keeps_without_password_put name :
  AllowsPut (keeps_without_password name).
Proof.
  intros w row Hrow (old & Hold & Hnone).
  destruct (decide (username row = name)) as [<-|Hne].
  - exists row. cbn [users set_users]. by rewrite lookup_insert_eq.
  - exists old. cbn [users set_users]. by rewrite lookup_insert_ne.
Qed.
#[local] Instance keeps_without_password_update name :
  AllowsUpdate (keeps_without_password name).
Proof.
  intros w key h (old & Hold & Hnone).
  destruct (decide (key = name)) as [->|Hne].
  - exists (with_backupHash h old). cbn [users set_users].
    by rewrite lookup_alter_eq, Hold.
  - exists old. cbn [users set_users]. by rewrite lookup_alter_ne.
Qed.

(** *** What the calls leave alone *)

(** [signUp], [backupData] and [restoreData] leave the instance as it is,
    whatever they return or throw: the application id, the base URL and,
    above all, the session.  A sign-up or a restore logs nobody in. *)
Theorem calls_keep_instance u p k data w :
  same_instance w (signUp u p w).2
  ∧ same_instance w (backupData data w).2
  ∧ same_instance w (restoreData u k w).2.
Proof.
  split_and!.
  - apply (preserves_signUp (R := same_instance)).
  - apply (preserves_backupData (R := same_instance)).
  - apply (preserves_restoreData (R := same_instance)).
Qed.

(** [signUp] and [backupData], whatever they return or throw, leave every
    row its password verifier and its recovery key: a password that
    logged in before still does. *)
Theorem signUp_backupData_keep_credentials u p data w :
  keeps_credentials w (signUp u p w).2
  ∧ keeps_credentials w (backupData data w).2
  ∧ ∀ name password,
      (login name password w).1 = Ok true →
      (login name password (signUp u p w).2).1 = Ok true
      ∧ (login name password (backupData data w).2).1 = Ok true.
Proof.
  assert (keeps_credentials w (signUp u p w).2) as Hup
    by apply (preserves_signUp (R := keeps_credentials)).
  assert (keeps_credentials w (backupData data w).2) as Hbackup
    by apply (preserves_backupData (R := keeps_credentials)).
  split_and!; [done..|]. intros name password.
  rewrite !login_run. destruct (users w !! name) as [row|] eqn:Hrow; [|done].
  destruct (Hup _ _ Hrow) as (row1 & -> & -> & _).
  destruct (Hbackup _ _ Hrow) as (row2 & -> & -> & _).
  by destruct (bool_decide _).
Qed.

(** *** Sequences of calls *)

Lemma login_world u p w :
  (login u p w).2 = w
  ∨ (is_Some (users w !! u) ∧ (login u p w).2 = set_currentUser (Some u) w).
Proof.
  rewrite login_run. destruct (users w !! u) as [row|]; [|by left].
  destruct (bool_decide _); [right|left]; eauto.
Qed.

Lemma perform_keeps_rows (c : Call) w : keeps_rows w (perform c w).
Proof.
  destruct c as [u p|u p| |data|u k]; cbn [perform].
  - apply (preserves_signUp (R := keeps_rows)).
  - unfold keeps_rows. by destruct (login_world u p w) as [->|[_ ->]].
  - unfold keeps_rows. cbn. done.
  - apply (preserves_backupData (R := keeps_rows)).
  - apply (preserves_restoreData (R := keeps_rows)).
Qed.

(** No sequence of calls deletes a row: the SDK never forgets a user of
    the device. *)
Theorem perform_all_keeps_rows (calls : list Call) w :
  dom (users w) ⊆ dom (users (perform_all calls w)).
Proof.
  revert w. induction calls as [|c calls IH]; intros w; [done|].
  cbn [perform_all fold_left]. etrans; [apply perform_keeps_rows|apply IH].
Qed.

Lemma session_has_row_frame w w' :
  same_instance w w' → keeps_rows w w' →
  session_has_row w → session_has_row w'.
Proof.
  intros (_ & _ & Hsession) Hrows Hrow c Hc. rewrite Hsession in Hc.
  apply Hrow in Hc. apply elem_of_dom. apply elem_of_dom in Hc. by apply Hrows.
Qed.

Lemma perform_session_has_row (c : Call) w :
  session_has_row w → session_has_row (perform c w).
Proof.
  intros Hrow. destruct c as [u p|u p| |data|u k]; cbn [perform].
  - eapply session_has_row_frame; [| |done].
    + apply (preserves_signUp (R := same_instance)).
    + apply (preserves_signUp (R := keeps_rows)).
  - destruct (login_world u p w) as [->|[Hu ->]]; [done|].
    intros c. cbn [currentUser set_currentUser users logged_in].
    destruct (String.eqb u ""); [done|]. by intros [= <-].
  - by intros c.
  - eapply session_has_row_frame; [| |done].
    + apply (preserves_backupData (R := same_instance)).
    + apply (preserves_backupData (R := keeps_rows)).
  - eapply session_has_row_frame; [| |done].
    + apply (preserves_restoreData (R := same_instance)).
    + apply (preserves_restoreData (R := keeps_rows)).
Qed.

(** *** The errors of [backupData] and [signUp] *)

Lemma backupData_errors_run data w e :
  (backupData data w).1 = Throw e →
  (e = NotLoggedIn ∧ logged_in (currentUser w) = None)
  ∨ (e = MissingRow
     ∧ ∃ c, logged_in (currentUser w) = Some c ∧ users w !! c = None)
  ∨ (is_Some (logged_in (currentUser w) ≫= λ c, users w !! c)
     ∧ (e = BackupUnanswered ∨ (∃ cause, e = NetworkOrApiError cause)
        ∨ unwrapped e)).
Proof.
  destruct (backupData data w) as [r w'] eqn:Hrun. cbn [fst]. intros ->.
  unfold backupData in Hrun.
  rewrite bind_run, this_run in Hrun.
  destruct (logged_in (currentUser w)) as [c|]; [|left; by inversion Hrun].
  rewrite bind_run, db_users_get_run in Hrun.
  destruct (users w !! c) as [row|] eqn:Hrow;
    [|right; left; inversion Hrun; subst; split; [done|by exists c]].
  right; right. split; [cbn; by rewrite Hrow|].
  rewrite bind_run in Hrun. unfold random at 1 in Hrun.
  destruct (encryptData data (recoveryKey row) (entropy w)) as [ct pool].
  rewrite bind_run in Hrun.
  match type of Hrun with context [_request ?ep ?o ?w0] =>
    destruct (_request_cases ep o w0) as [(v & _ & Hreq)|(e' & _ & Hreq & He)];
      rewrite Hreq in Hrun; [|inversion Hrun; subst; tauto]
  end.
  rewrite bind_run in Hrun. unfold read, lift in Hrun.
  destruct (get_prop v "ipfsHash") as [cause|found];
    [inversion Hrun; subst; right; by right|].
  rewrite ret_run, bind_run, require_run in Hrun.
  destruct found as [h|]; [destruct (truthy h)|];
    try (inversion Hrun; subst; by left).
  rewrite bind_run, this_run, bind_run in Hrun.
  match type of Hrun with context [_request ?ep ?o ?w0] =>
    destruct (_request_cases ep o w0) as [(v' & _ & Hreq')|(e' & _ & Hreq' & He)];
      rewrite Hreq' in Hrun; [|inversion Hrun; subst; tauto]
  end.
  rewrite bind_run, db_users_update_run, ret_run in Hrun. inversion Hrun.
Qed.

(** Whatever the calls made before, the user of the session has a row: the
    error of [backupData] for credentials that are not found cannot occur
    on an instance that was used through the SDK only. *)
Theorem perform_all_session_has_row (calls : list Call) w :
  session_has_row w →
  session_has_row (perform_all calls w)
  ∧ ∀ data, (backupData data (perform_all calls w)).1 ≠ Throw MissingRow.
Proof.
  intros Hrow.
  assert (session_has_row (perform_all calls w)) as Hafter.
  { revert w Hrow. induction calls as [|c calls IH]; intros w Hrow; [done|].
    cbn [perform_all fold_left]. apply IH. by apply perform_session_has_row. }
  split; [done|]. intros data Hthrow.
  apply backupData_errors_run in Hthrow
    as [[? _]|[(_ & c & Hc & Hnone)|(_ & [?|[[cause ?]|Hun]])]]; try done.
  apply Hafter in Hc. rewrite Hnone in Hc. by destruct Hc.
Qed.

(** What [backupData] throws is one of five: NotLoggedIn, the error of
    the missing row, the error of a store that answered without a pointer,
    the wrapped error of a request, or an error of the engine that
    escapes unwrapped. *)
Theorem backupData_errors data w e :
  (backupData data w).1 = Throw e →
  e = NotLoggedIn ∨ e = MissingRow ∨ e = BackupUnanswered
  ∨ (∃ cause, e = NetworkOrApiError cause) ∨ unwrapped e.
Proof.
  intros Hthrow. apply backupData_errors_run in Hthrow. tauto.
Qed.

Lemma signUp_errors_run u p w e :
  (signUp u p w).1 = Throw e →
  e = MissingCredentials ∨ e = DuplicateUser ∨ e = BackupFailed
  ∨ (∃ cause, e = NetworkOrApiError cause) ∨ unwrapped e.
Proof.
  destruct (signUp u p w) as [r w'] eqn:Hrun. cbn [fst]. intros ->.
  unfold signUp in Hrun.
  destruct (String.eqb u "" || String.eqb p ""); [left; by inversion Hrun|].
  rewrite bind_run, db_users_get_run in Hrun.
  destruct (users w !! u) as [existing|] eqn:Hfresh;
    [right; left; by inversion Hrun|].
  rewrite bind_run in Hrun. unfold random at 1 in Hrun.
  destruct (generateRecoveryKey (entropy w)) as [key pool].
  rewrite bind_run, this_run, bind_run in Hrun.
  match type of Hrun with context [_request ?ep ?o ?w0] =>
    destruct (_request_cases ep o w0) as [(v & _ & Hreq)|(e' & _ & Hreq & He)];
      rewrite Hreq in Hrun; [|inversion Hrun; subst; tauto]
  end.
  rewrite bind_run in Hrun. unfold random at 1 in Hrun.
  destruct (encryptData _ _ _) as [ct pool'].
  rewrite bind_run in Hrun.
  match type of Hrun with context [_request ?ep ?o ?w0] =>
    destruct (_request_cases ep o w0) as [(v2 & _ & Hreq2)|(e' & _ & Hreq2 & He)];
      rewrite Hreq2 in Hrun; [|inversion Hrun; subst; tauto]
  end.
  rewrite bind_run in Hrun. unfold read, lift in Hrun.
  destruct (get_prop v2 "ipfsHash") as [cause|found];
    [inversion Hrun; subst; do 4 right; done|].
  rewrite ret_run, bind_run, require_run in Hrun.
  destruct found as [h|]; [destruct (truthy h)|];
    try (inversion Hrun; subst; tauto).
  rewrite bind_run, this_run, bind_run in Hrun.
  match type of Hrun with context [_request ?ep ?o ?w0] =>
    destruct (_request_cases ep o w0) as [(v3 & _ & Hreq3)|(e' & _ & Hreq3 & He)];
      rewrite Hreq3 in Hrun; [|inversion Hrun; subst; tauto]
  end.
  rewrite bind_run, db_users_add_fresh in Hrun by done.
  inversion Hrun.
Qed.

(** What [signUp] throws is one of five: the error of missing credentials,
    DuplicateUser, BackupFailed, the wrapped error of a request, or an
    error of the engine that escapes unwrapped.  The ConstraintError of
    [db.users.add] is not among them: the username was looked up at the
    start, and no step in between writes a row. *)
Theorem signUp_errors u p w e :
  (signUp u p w).1 = Throw e →
  (e = MissingCredentials ∨ e = DuplicateUser ∨ e = BackupFailed
   ∨ (∃ cause, e = NetworkOrApiError cause) ∨ unwrapped e)
  ∧ ∀ message, e ≠ ConstraintError message.
Proof.
  intros Hthrow. apply signUp_errors_run in Hthrow. split; [done|].
  intros message ->. destruct Hthrow as [?|[?|[?|[[cause ?]|?]]]]; done.
Qed.

(** *** What [signUp] and [restoreData] send *)



Lemma bind_agree {A B : Type} (Q : Result B * World → Result B * World → Prop)
  (m : M A) (f1 f2 : A → M B) w :
  (∀ x, Q x x) →
  (∀ a w', Q (f1 a w') (f2 a w')) →
  Q ((m ≫= f1) w) ((m ≫= f2) w).
Proof.
  intros Hrefl Hf. rewrite !bind_run. by destruct (m w) as [[a|e] w1].
Qed.

Lemma same_traffic_local {A : Type} (m1 m2 : M A) w :
  preserves stays_local m1 → preserves stays_local m2 →
  same_traffic (m1 w) (m2 w).
Proof.
  intros Hm1 Hm2. destruct (Hm1 w) as [? ?], (Hm2 w) as [? ?].
  split; congruence.
Qed.

(** The password never leaves the device: two sign-ups that differ in the
    password only send the same requests, leave the server in the same
    state and return the same. *)
Theorem signUp_password_stays_local u p1 p2 w :
  p1 ≠ "" → p2 ≠ "" →
  same_outcome (signUp u p1 w) (signUp u p2 w).
Proof.
  intros Hp1%String.eqb_neq Hp2%String.eqb_neq. unfold signUp.
  rewrite Hp1, Hp2. destruct (String.eqb u ""); [done|]. cbn [orb].
  apply (bind_agree same_outcome); [done|]. intros [row|] w1; [done|].
  do 9 (apply (bind_agree same_outcome); [done|]; intros ? ?).
  split.
  - rewrite !bind_run. unfold db_users_add. rewrite !bind_run, !db_users_get_run.
    cbn [username]. by destruct (users _ !! u).
  - apply same_traffic_local; frame.
Qed.

(** The recovery key never leaves the device in a restore: two restores
    that differ in the key only send the same requests and leave the
    server in the same state. *)
Theorem restoreData_key_stays_local u k1 k2 w :
  same_traffic (restoreData u k1 w) (restoreData u k2 w).
Proof.
  unfold restoreData.
  do 6 (apply (bind_agree same_traffic); [done|]; intros ? ?).
  apply same_traffic_local; frame.
Qed.

Lemma restoreData_first_request u k w :
  (log w ++ [EvFetch (lookup_url w u) no_options])%list
    `prefix_of` log (restoreData u k w).2.
Proof.
  unfold restoreData. rewrite bind_run, this_run.
  match goal with |- context [(_request ?ep ?o ≫= ?f) ?w0] =>
    pose proof (preserves_after (R := log_grows) (_request ep o) f w0
                  ltac:(intros; cbv beta; frame)) as Hgrows;
    rewrite _request_world in Hgrows
  end.
  exact Hgrows.
Qed.

(** The lookup of [restoreData] does not tell apart every application and
    username: the restores of the two pairs below, on instances with the
    same base URL, begin with the very same request to the directory. *)
Theorem lookup_url_collision w1 w2 k1 k2 :
  apiBaseUrl w1 = apiBaseUrl w2 →
  appId w1 = "app" → appId w2 = "app&username=a" →
  let lookup :=
    EvFetch
      (apiBaseUrl w1 +:+ "/api/get-hash?app_id=app&username=a&username=b")
      no_options in
  (log w1 ++ [lookup])%list `prefix_of` log (restoreData "a&username=b" k1 w1).2
  ∧ (log w2 ++ [lookup])%list `prefix_of` log (restoreData "b" k2 w2).2.
Proof.
  intros Hbase Happ1 Happ2. cbv zeta. split.
  - pose proof (restoreData_first_request "a&username=b" k1 w1) as Hfirst.
    unfold lookup_url in Hfirst. by rewrite Happ1 in Hfirst.
  - pose proof (restoreData_first_request "b" k2 w2) as Hfirst.
    unfold lookup_url in Hfirst. by rewrite Happ2, <- Hbase in Hfirst.
Qed.

(** *** [logout] *)

(** [logout] ends the session and does nothing else: the rows, the server
    and the log are as before; a backup now fails with NotLoggedIn,
    without a request; and a login answers what it answered before. *)
Theorem logout_ends_session_only w :
  (logout w).1 = Ok ()
  ∧ currentUser (logout w).2 = None
  ∧ users (logout w).2 = users w ∧ stays_local w (logout w).2
  ∧ log (logout w).2 = log w
  ∧ (∀ data, backupData data (logout w).2 = (Throw NotLoggedIn, (logout w).2))
  ∧ (∀ u p, (login u p (logout w).2).1 = (login u p w).1).
Proof.
  split_and!; [done..| |].
  - intros data. unfold backupData. by rewrite bind_run, this_run.
  - intros u p. rewrite !login_run. cbn [logout modify snd users set_currentUser].
    destruct (users w !! u) as [row|]; [|done]. by destruct (bool_decide _).
Qed.

(** *** After a restore *)

Lemma restoreData_row u k w d :
  (restoreData u k w).1 = Ok d →
  ∃ h, users (restoreData u k w).2 !! u = Some (restored_record u k h).
Proof.
  intros Hok. pose proof (restoreData_run u k w) as Hrun. cbn zeta in Hrun.
  repeat case_match;
    try (destruct Hrun as (He & _); rewrite He in Hok; done);
    try (destruct Hrun as ((e & He & _) & _); rewrite He in Hok; done).
  all: destruct Hrun as (_ & _ & ->); eexists; apply lookup_insert_eq.
Qed.

Lemma perform_keeps_without_password name (c : Call) w :
  keeps_without_password name w (perform c w).
Proof.
  destruct c as [u p|u p| |data|u k]; cbn [perform].
  - apply (preserves_signUp (R := keeps_without_password name)).
  - unfold keeps_without_password, without_password.
    by destruct (login_world u p w) as [->|[_ ->]].
  - by unfold keeps_without_password, without_password.
  - apply (preserves_backupData (R := keeps_without_password name)).
  - apply (preserves_restoreData (R := keeps_without_password name)).
Qed.

(** A user whose row has no password verifier, which is the row a restore
    writes, cannot log in, whatever the password and whatever calls are
    made first: no call of the SDK sets the password of an existing
    row. *)
Theorem restored_user_never_logs_in u k w d (calls : list Call) p :
  (restoreData u k w).1 = Ok d →
  (login u p (perform_all calls (restoreData u k w).2)).1 = Ok false.
Proof.
  intros Hok. apply restoreData_row in Hok as [h Hrow].
  assert (without_password u (restoreData u k w).2) as Hwithout by by eexists.
  clear Hrow. revert Hwithout. generalize (restoreData u k w).2. clear w.
  induction calls as [|c calls IH]; intros w Hwithout; cbn [perform_all fold_left].
  - destruct Hwithout as (row & Hrow & Hnone).
    by rewrite (login_without_password u p w row).
  - apply IH. by apply (perform_keeps_without_password u c w).
Qed.


(** *** The constructor *)

Lemma strip_trailing_slash_app (s : string) :
  strip_trailing_slash (s +:+ "/") = s.
Proof.
  induction s as [|c s IH]; [done|].
  change (String c s +:+ "/") with (String c (s +:+ "/")).
  cbn [strip_trailing_slash]. rewrite IH. by destruct s.
Qed.

Lemma strip_trailing_slash_other (s : string) :
  (∀ t, s ≠ t +:+ "/") → strip_trailing_slash s = s.
Proof.
  induction s as [|c s IH]; [done|]. intros Hs. cbn [strip_trailing_slash].
  destruct s as [|c' s].
  - destruct (Ascii.eqb_spec c "/") as [->|_]; [|done]. by destruct (Hs "").
  - rewrite IH; [done|]. intros t Ht. apply (Hs (String c t)). by rewrite Ht.
Qed.

(** [new PortID(appId, apiBaseUrl)] throws exactly when an argument is
    empty.  Otherwise the instance has no session, and its base URL is the
    argument without its last character if that is a slash: one slash is
    removed, not more, and a base URL of one slash becomes empty. *)
Theorem new_PortID_instance (app base : string) (stored : gmap string User)
  (s : ServerState) (pool : Entropy) :
  match new_PortID app base stored s pool with
  | Throw e => e = MissingArguments ∧ (app = "" ∨ base = "")
  | Ok w =>
      app ≠ "" ∧ base ≠ ""
      ∧ appId w = app ∧ users w = stored ∧ currentUser w = None
      ∧ session_has_row w
      ∧ (∀ t, base = t +:+ "/" → apiBaseUrl w = t)
      ∧ ((∀ t, base ≠ t +:+ "/") → apiBaseUrl w = base)
  end.
Proof.
  unfold new_PortID.
  destruct (String.eqb_spec app "") as [->|Happ]; [by split; [|left]|].
  destruct (String.eqb_spec base "") as [->|Hbase]; [by split; [|right]|].
  cbn [orb appId users currentUser apiBaseUrl]. split_and!; try done.
  - intros t ->. apply strip_trailing_slash_app.
  - apply strip_trailing_slash_other.
Qed.

End Properties.

(** ** [enableAutoBackup] *)

Section AutoBackupProperties.
Context `{JsNumber} `{!JsArithmetic}.


End AutoBackupProperties.

(** ** Runs on the reference platform *)

Import Reference.

(** *** The algorithms, on published test vectors *)

Example md5_abc :
  Bytes.hex (MD5.digest (Bytes.bytes_of_string "abc"))
  = "900150983cd24fb0d6963f7d28e17f72".
Proof. vm_compute; reflexivity. Qed.

Example sha256_abc :
  Bytes.hex (SHA2.digest (Bytes.bytes_of_string "abc"))
  = "ba7816bf8f01cfea414140de5dae2223b00361a396177a9cb410ff61f20015ad".
Proof. vm_compute; reflexivity. Qed.

(** FIPS 197, appendix C.3. *)
Example aes256_block :
  let key := List.map N.of_nat (seq 0 32) in
  let block := List.map (λ i, N.of_nat (17 * i)) (seq 0 16) in
  Bytes.hex (AES.encrypt_block (AES.round_keys key) block)
  = "8ea2b7ca516745bfeafc49904b496089"
  ∧ AES.decrypt_block (AES.round_keys key)
      (AES.encrypt_block (AES.round_keys key) block) = block.
Proof. split; vm_compute; reflexivity. Qed.

(** The text [openssl enc -aes-256-cbc -md md5 -base64] prints for the
    initial payload, the passphrase below and the salt 01 02 ... 08. *)
Example openssl_initial_payload :
  (encryptData initialData "000102030405060708090a0b0c0d0e0f"
     (List.map N.of_nat (seq 1 8))).1
  = "U2FsdGVkX18BAgMEBQYHCKle+7TSLGDtM11exDGbM7B1vI4Clld47Pvn2MfT+B9c".
Proof. vm_compute; reflexivity. Qed.

(** *** The claims, on concrete inputs *)

(** C2, at the initial payload and the recovery key of the first sign-up. *)
Lemma decryptData_encryptData_witness :
  serializable initialData
  ∧ JSON_parse "" = None
  ∧ deciphers (JSON_stringify initialData)
      "000102030405060708090a0b0c0d0e0f" pool pool
  ∧ (decryptData
       (JString (encryptData initialData "000102030405060708090a0b0c0d0e0f" pool).1)
       "000102030405060708090a0b0c0d0e0f" pool).1 = initialData.
Proof.
  assert (serializable initialData) as Hjson by (vm_compute; reflexivity).
  assert (JSON_parse "" = None) as Hempty by (vm_compute; reflexivity).
  assert (deciphers (JSON_stringify initialData)
            "000102030405060708090a0b0c0d0e0f" pool pool) as Hkey
    by (vm_compute; reflexivity).
  split_and!; [done..|].
  exact (decryptData_encryptData initialData _ _ _ Hjson Hempty Hkey).
Defined.

(** C4: with a row for alice on the device, a sign-up of alice with an
    empty password fails as missing credentials, not as DuplicateUser. *)
Lemma signUp_existing_user_empty_password :
  users device !! "alice" = Some alice_row
  ∧ signUp "alice" "" device = (Throw MissingCredentials, device)
  ∧ (signUp "alice" "" device).1 ≠ Throw DuplicateUser.
Proof.
  split_and!; [vm_compute; reflexivity|reflexivity|vm_compute; discriminate].
Qed.

(** C4, at a second sign-up of alice with a new password. *)
Lemma signUp_existing_user_witness :
  users device !! "alice" = Some alice_row
  ∧ signUp "alice" "pw2" device = (Throw DuplicateUser, device).
Proof.
  assert (users device !! "alice" = Some alice_row) as Hrow
    by (vm_compute; reflexivity).
  split; [done|].
  exact (signUp_existing_user "alice" "pw2" device alice_row Hrow).
Defined.

(** C5: without a row for bob, a login of bob returns false; it throws
    nothing. *)
Lemma login_unknown_user_returns_false :
  users (fresh "app") !! "bob" = None
  ∧ login "bob" "secret" (fresh "app") = (Ok false, fresh "app")
  ∧ ∀ e, (login "bob" "secret" (fresh "app")).1 ≠ Throw e.
Proof.
  split_and!; [vm_compute; reflexivity|reflexivity|].
  intros e. vm_compute. discriminate.
Qed.

(** C5, at alice with her password and with another, and at bob, who has
    no row. *)
Lemma login_answer_witness :
  (login "alice" "pw1" device).1 = Ok true
  ∧ (login "alice" "wrong" device).1 = Ok false
  ∧ login "bob" "secret" (fresh "app") = (Ok false, fresh "app").
Proof.
  split_and!.
  - rewrite (proj1 (login_answer "alice" "pw1" device)). vm_compute; reflexivity.
  - rewrite (proj1 (login_answer "alice" "wrong" device)). vm_compute; reflexivity.
  - apply (proj2 (login_answer "bob" "secret" (fresh "app"))).
    vm_compute; reflexivity.
Defined.

(** C10, at a failed login of bob while alice is logged in. *)
Lemma login_failure_keeps_session_witness :
  (login "bob" "secret" device).1 ≠ Ok true
  ∧ currentUser (login "bob" "secret" device).2 = Some "alice".
Proof.
  assert ((login "bob" "secret" device).1 ≠ Ok true) as Hfail
    by (vm_compute; discriminate).
  split; [done|].
  exact (proj1 (login_failure_keeps_session "bob" "secret" device Hfail)).
Defined.



(** C8, at the restore of alice after her sign-up. *)
Lemma restoreData_success_witness :
  (restoreData "alice" (key_of "alice" "pw1") (signed_up "alice" "pw1")).1
  = Ok initialData
  ∧ ∀ p, (login "alice" p
            (restoreData "alice" (key_of "alice" "pw1")
               (signed_up "alice" "pw1")).2).1 = Ok false.
Proof.
  assert ((restoreData "alice" (key_of "alice" "pw1")
             (signed_up "alice" "pw1")).1 = Ok initialData) as Hok
    by (vm_compute; reflexivity).
  split; [exact Hok|].
  destruct (restoreData_success "alice" _ _ _ Hok)
    as (directory & h & reply & b & _ & _ & _ & _ & _ & _ & Hlogin & _).
  intros p. by rewrite Hlogin.
Defined.

(** C1: on a fresh device and server, the sign-up of the username [a&b]
    succeeds and returns a recovery key, and the restore of [a&b] with
    that key fails: the username goes into the query string as it is, so
    the directory is asked for the user [a].  The sign-up and restore of
    [alice] give the initial payload back. *)
Theorem restoreData_after_signUp_unescaped :
  (signUp "a&b" "pw1" (fresh "app")).1 = Ok (key_of "a&b" "pw1")
  ∧ lookup_url (signed_up "a&b" "pw1") "a&b"
    = "https://sync.example/api/get-hash?app_id=app&username=a&b"
  ∧ (restoreData "a&b" (key_of "a&b" "pw1") (signed_up "a&b" "pw1")).1
    = Throw NoBackupFound
  ∧ (signUp "alice" "pw1" (fresh "app")).1 = Ok (key_of "alice" "pw1")
  ∧ (restoreData "alice" (key_of "alice" "pw1") (signed_up "alice" "pw1")).1
    = Ok initialData.
Proof. split_and!; vm_compute; reflexivity. Qed.

(** C3: the sign-up of alice draws the recovery key 00 01 ... 0f and stores
    the initial payload enciphered under it.  Under the different key
    [...0a60] the blob deciphers to bytes that end in 1f, which the
    unpadding takes for thirty-one bytes of padding; the one byte left is
    the text [4], which is JSON.  [decryptData] returns the number 4, not
    [null], and [restoreData] succeeds with it and files the wrong key. *)
Theorem decryptData_wrong_key_accepted :
  let key := "000102030405060708090a0b0c0d0e0f" in
  let other := "00000000000000000000000000000a60" in
  let blob := "U2FsdGVkX18QERITFBUWFw6GVaPLzNRpO27bFi9jqWs2ze9X0qbKar5uGqRYmtIi" in
  (signUp "alice" "pw1" (fresh "app")).1 = Ok key
  ∧ (encryptData initialData key (drop 16 pool)).1 = blob
  ∧ (decryptData (JString blob) key pool).1 = initialData
  ∧ (decryptData (JString blob) other pool).1 = JNumber 4%Z
  ∧ (restoreData "alice" other (signed_up "alice" "pw1")).1 = Ok (JNumber 4%Z)
  ∧ recoveryKey <$>
      users (restoreData "alice" other (signed_up "alice" "pw1")).2 !! "alice"
    = Some other.
Proof. cbv zeta. split_and!; vm_compute; reflexivity. Qed.

(** *** Sign-up, then restore, with names the query string carries unchanged *)

(** **** Strings *)

Lemma append_cons (x : ascii) (a b : string) :
  String x a +:+ b = String x (a +:+ b).
Proof. reflexivity. Qed.

Lemma append_nil (b : string) : "" +:+ b = b.
Proof. reflexivity. Qed.

Lemma append_assoc (a b c : string) : (a +:+ b) +:+ c = a +:+ (b +:+ c).
Proof.
  induction a as [|x a IH]; [done|]. rewrite !append_cons. by f_equal.
Qed.

(** **** [JSON.parse] reads back an object of strings *)

Lemma read_chars_quote_chars (s rest : string) :
  read_chars (quote_chars s +:+ String double_quote rest) = Some (s, rest).
Proof.
  induction s as [|c s IH]; [done|]. cbn [quote_chars].
  destruct (Ascii.eqb c double_quote || Ascii.eqb c backslash) eqn:Hesc.
  - rewrite !append_cons. cbn [read_chars].
    change (Ascii.eqb backslash double_quote) with false.
    change (Ascii.eqb backslash backslash) with true. cbn iota.
    rewrite IH. done.
  - apply orb_false_elim in Hesc as [Hq Hb].
    rewrite append_cons. cbn [read_chars]. rewrite Hq, Hb, IH. done.
Qed.

Lemma read_string_quote (s rest : string) :
  read_string (quote s +:+ rest) = Some (s, rest).
Proof.
  unfold quote. rewrite append_cons, append_assoc, append_cons, append_nil.
  cbn [read_string]. change (Ascii.eqb double_quote double_quote) with true.
  cbn iota. apply read_chars_quote_chars.
Qed.

Lemma read_value_string (fuel : nat) (s rest : string) :
  read_value (S fuel) (quote s +:+ rest) = Some (JString s, rest).
Proof.
  pose proof (read_string_quote s rest) as Hread.
  unfold quote in *. rewrite append_cons in *.
  change (read_value (S fuel) (String double_quote ?t))
    with (match read_string (String double_quote t),
                span_digits (String double_quote t) with
          | Some (t', r), _ => Some (JString t', r)
          | None, ("", _) => None
          | None, (d, r) => Some (JNumber (digits_value 0 d), r)
          end).
  by rewrite Hread.
Qed.

Lemma read_fields_flat (read_one : string → option (json * string))
  (k v : string) (more : list (string * string)) (fuel : nat) (tail : string) :
  (∀ s rest, read_one (quote s +:+ rest) = Some (JString s, rest)) →
  (List.length more < fuel)%nat →
  read_fields read_one fuel (members ((k, v) :: more) +:+ String "}" tail)
  = Some (List.map (λ kv, (kv.1, JString kv.2)) ((k, v) :: more), tail).
Proof.
  intros Hone. revert k v fuel.
  induction more as [|[k' v'] more IH]; intros k v fuel Hfuel;
    (destruct fuel as [|fuel]; [simpl in Hfuel; lia|]).
  - unfold members. cbn [List.map String.concat fst snd].
    rewrite !append_assoc. cbn [read_fields].
    rewrite read_string_quote. cbv [mbind option_bind]; cbn beta iota.
    rewrite append_cons, append_nil. cbn [strip_prefix].
    change (Ascii.eqb ":" ":") with true. cbn iota.
    rewrite Hone. done.
  - specialize (IH k' v' fuel ltac:(simpl in Hfuel; lia)).
    unfold members in *. cbn [List.map String.concat fst snd] in *.
    rewrite !append_assoc. cbn [read_fields].
    rewrite read_string_quote. cbv [mbind option_bind]; cbn beta iota.
    rewrite append_cons, append_nil. cbn [strip_prefix].
    change (Ascii.eqb ":" ":") with true. cbn iota.
    rewrite Hone. cbv [mbind option_bind]; cbn beta iota.
    rewrite append_cons, append_nil.
    rewrite !append_assoc in IH. rewrite IH. done.
Qed.

Lemma length_append (a b : string) :
  String.length (a +:+ b) = String.length a + String.length b.
Proof.
  induction a as [|x a IH]; [done|]. rewrite append_cons. cbn [String.length].
  by rewrite IH.
Qed.

Lemma members_length (fields : list (string * string)) :
  (List.length fields ≤ String.length (members fields) + 1)%nat.
Proof.
  unfold members. induction fields as [|[k v] [|kv more] IH].
  - simpl. lia.
  - cbn [List.map String.concat fst snd List.length].
    rewrite !length_append. unfold quote. cbn [String.length]. lia.
  - cbn [List.map String.concat fst snd List.length] in *.
    rewrite !length_append. unfold quote at 1 2. cbn [String.length]. lia.
Qed.

Lemma stringify_flat (fields : list (string * string)) :
  stringify (flat fields) = String "{" (members fields +:+ "}").
Proof.
  unfold flat, members. cbn [stringify]. rewrite append_cons, append_nil.
  do 2 f_equal. rewrite List.map_map. done.
Qed.

Lemma parse_flat (k v : string) (more : list (string * string)) :
  parse (stringify (flat ((k, v) :: more))) = Some (flat ((k, v) :: more)).
Proof.
  rewrite stringify_flat. unfold parse. cbn [String.length].
  pose proof (members_length ((k, v) :: more)) as Hlen.
  assert (List.length more
          < S (String.length (members ((k, v) :: more) +:+ "}")))%nat as Hfuel.
  { rewrite length_append. cbn [List.length String.length] in *. lia. }
  pose proof (read_fields_flat
                (read_value (S (String.length (members ((k, v) :: more) +:+ "}"))))
                k v more (S (String.length (members ((k, v) :: more) +:+ "}"))) ""
                (read_value_string _) Hfuel) as Hfields.
  clear Hlen Hfuel.
  remember (S (String.length (members ((k, v) :: more) +:+ "}"))) as fuel.
  remember (members ((k, v) :: more) +:+ "}") as rest eqn:Hrest.
  assert (∃ t, rest = String double_quote t) as [t Ht].
  { subst rest. unfold members. cbn [List.map String.concat fst].
    destruct more; unfold quote; rewrite ?append_cons; eauto. }
  rewrite Ht in *.
  change (read_value (S fuel) (String "{" (String double_quote t)))
    with (read_fields (read_value fuel) fuel (String double_quote t)
          ≫= λ '(kvs, r), Some (JObject kvs, r)).
  rewrite Hfields. done.
Qed.

(** **** The server, request by request *)

Lemma absent_safe (c : ascii) (s : string) :
  unreserved c = false → url_safe s = true → absent c s = true.
Proof.
  intros Hc. induction s as [|x s IH]; [done|]. cbn [url_safe absent].
  intros [Hx Hs]%andb_prop. rewrite (IH Hs).
  destruct (Ascii.eqb_spec x c) as [->|_]; [congruence|done].
Qed.

Lemma absent_app (c : ascii) (s t : string) :
  absent c s = true → absent c t = true → absent c (s +:+ t) = true.
Proof.
  intros Hs Ht. induction s as [|x s IH]; [done|]. rewrite append_cons.
  cbn [absent] in *. apply andb_prop in Hs as [Hx Hs].
  by rewrite Hx, IH.
Qed.

Lemma cut_at_absent (c : ascii) (s : string) :
  absent c s = true → cut_at c s = (s, None).
Proof.
  induction s as [|x s IH]; [done|]. cbn [absent cut_at].
  intros [Hx Hs]%andb_prop. apply negb_true_iff in Hx. by rewrite Hx, IH.
Qed.

Lemma cut_at_found (c : ascii) (s t : string) :
  absent c s = true → cut_at c (s +:+ String c t) = (s, Some t).
Proof.
  induction s as [|x s IH].
  - intros _. rewrite append_nil. cbn [cut_at]. by rewrite Ascii.eqb_refl.
  - cbn [absent]. intros [Hx Hs]%andb_prop. apply negb_true_iff in Hx.
    rewrite append_cons. cbn [cut_at]. by rewrite Hx, IH.
Qed.

Lemma split_on_found (c : ascii) (s t : string) :
  absent c s = true → split_on c (s +:+ String c t) = s :: split_on c t.
Proof.
  induction s as [|x s IH].
  - intros _. rewrite append_nil. cbn [split_on]. by rewrite Ascii.eqb_refl.
  - cbn [absent]. intros [Hx Hs]%andb_prop. apply negb_true_iff in Hx.
    rewrite append_cons. cbn [split_on]. by rewrite Hx, IH.
Qed.

Lemma split_on_absent (c : ascii) (s : string) :
  absent c s = true → split_on c s = [s].
Proof.
  induction s as [|x s IH]; [done|]. cbn [absent split_on].
  intros [Hx Hs]%andb_prop. apply negb_true_iff in Hx. by rewrite Hx, IH.
Qed.

Lemma strip_prefix_app (p s : string) : strip_prefix p (p +:+ s) = Some s.
Proof.
  induction p as [|x p IH]; [by destruct s|]. rewrite append_cons.
  cbn [strip_prefix]. by rewrite Ascii.eqb_refl.
Qed.

(** The directory lookup, as the server reads it: with names of unreserved
    characters the query names the pair the SDK meant. *)
Lemma serve_get_hash (app u : string) (s : Server) :
  url_safe app = true → url_safe u = true →
  serve (origin +:+ ("/api/get-hash?app_id=" +:+ app +:+ "&username=" +:+ u))
        no_options s
  = (respond (JObject [("ipfsHash", default JNull (directory s !! (app, u)))]), s).
Proof.
  intros Happ Hu. unfold serve. rewrite strip_prefix_app.
  set (query := "app_id=" +:+ app +:+ "&username=" +:+ u).
  assert (∀ c, unreserved c = false → absent c "app_id=" = true →
               absent c "&username=" = true → absent c query = true) as Hquery.
  { intros c Hc H1 H2. unfold query.
    repeat apply absent_app; auto using absent_safe. }
  change ("/api/get-hash?app_id=" +:+ app +:+ "&username=" +:+ u)
    with ("/api/get-hash" +:+ String "?" query).
  rewrite (cut_at_absent "#").
  2: { apply absent_app; [done|]. cbn [absent]. rewrite Hquery; done. }
  cbn [fst]. rewrite cut_at_found by done.
  cbn [method no_options default from_option id].
  change (String.eqb "/api/get-hash" "/api/set-hash") with false.
  change (String.eqb "/api/get-hash" "/api/get-hash") with true. cbn iota.
  unfold query_pairs, query, id.
  change ("app_id=" +:+ app +:+ "&username=" +:+ u)
    with (("app_id" +:+ String "=" app)
          +:+ String "&" ("username" +:+ String "=" u)).
  rewrite split_on_found.
  2: { apply absent_app; [done|]. cbn [absent].
       rewrite (absent_safe "&" app); done. }
  rewrite split_on_absent.
  2: { apply absent_app; [done|]. cbn [absent].
       rewrite (absent_safe "&" u); done. }
  cbn [List.map]. rewrite !cut_at_found by done.
  reflexivity.
Qed.

(** The registration of a pointer, as the server reads it. *)
Lemma serve_set_hash (app u h : string) (s : Server) :
  serve (origin +:+ "/api/set-hash")
        (post_json (stringify (flat [("app_id", app); ("username", u);
                                     ("hash", h)])))
        s
  = (respond (JObject [("success", JBool true)]),
     {| directory := <[(app, u) := JString h]> (directory s);
        blobs := blobs s |}).
Proof.
  unfold serve. rewrite strip_prefix_app.
  change (cut_at "?" (cut_at "#" "/api/set-hash").1)
    with ("/api/set-hash", @None string).
  cbn [method post_json body].
  change (String.eqb "/api/set-hash" "/api/set-hash") with true. cbn iota.
  unfold set_hash. cbv [mbind option_bind]. rewrite parse_flat. reflexivity.
Qed.

(** The store of a ciphertext, as the server reads it. *)
Lemma serve_backup (c u : string) (s : Server) :
  serve (origin +:+ "/api/backup")
        (post_json (stringify (flat [("encryptedData", c); ("username", u)])))
        s
  = (respond (JObject [("ipfsHash", JString (content_pointer c))]),
     {| directory := directory s;
        blobs := <[content_pointer c := c]> (blobs s) |}).
Proof.
  unfold serve. rewrite strip_prefix_app.
  change (cut_at "?" (cut_at "#" "/api/backup").1)
    with ("/api/backup", @None string).
  cbn [method post_json body].
  change (String.eqb "/api/backup" "/api/set-hash") with false.
  change (String.eqb "/api/backup" "/api/backup") with true. cbn iota.
  unfold backup. cbv [mbind option_bind]. rewrite parse_flat. reflexivity.
Qed.

(** The fetch of a blob, as the server reads it. *)
Lemma serve_restore (h : string) (s : Server) :
  url_safe h = true →
  serve (origin +:+ ("/api/restore?hash=" +:+ h)) no_options s
  = (restore [("hash", h)] s, s).
Proof.
  intros Hh. unfold serve. rewrite strip_prefix_app.
  change ("/api/restore?hash=" +:+ h)
    with ("/api/restore" +:+ String "?" ("hash" +:+ String "=" h)).
  rewrite (cut_at_absent "#").
  2: { apply absent_app; [done|]. cbn [absent]. apply andb_true_intro.
       split; [done|]. apply absent_app; [done|]. cbn [absent].
       by rewrite (absent_safe "#" h). }
  cbn [fst]. rewrite cut_at_found by done.
  cbn [method no_options default from_option id].
  change (String.eqb "/api/restore" "/api/set-hash") with false.
  change (String.eqb "/api/restore" "/api/get-hash") with false.
  change (String.eqb "/api/restore" "/api/restore") with true. cbn iota.
  unfold query_pairs, id.
  rewrite split_on_absent.
  2: { apply absent_app; [done|]. cbn [absent].
       by rewrite (absent_safe "&" h). }
  cbn [List.map]. rewrite cut_at_found by done. reflexivity.
Qed.

(** **** The requests of the SDK, as the server answers them *)

Lemma _request_respond (endpoint : string) (options : RequestInit) (w : World)
  (v : json) (s' : Server) :
  serve (apiBaseUrl w +:+ endpoint) options (remote w) = (respond v, s') →
  _request endpoint options w
  = (Ok v, record_event (EvFetch (apiBaseUrl w +:+ endpoint) options)
             (set_remote s' w)).
Proof.
  intros Hserve. unfold _request.
  change (fetch (apiBaseUrl w +:+ endpoint) options (remote w))
    with (serve (apiBaseUrl w +:+ endpoint) options (remote w)).
  by rewrite Hserve.
Qed.

Lemma request_set_hash (app u h : string) (w : World) :
  apiBaseUrl w = origin →
  _request "/api/set-hash"
    (post_json (JSON_stringify (JObject
       [("app_id", JString app); ("username", JString u); ("hash", JString h)]))) w
  = (Ok (JObject [("success", JBool true)]),
     record_event
       (EvFetch (origin +:+ "/api/set-hash")
          (post_json (JSON_stringify (JObject
             [("app_id", JString app); ("username", JString u);
              ("hash", JString h)]))))
       (set_remote {| directory := <[(app, u) := JString h]> (directory (remote w));
                      blobs := blobs (remote w) |} w)).
Proof.
  intros Hbase. rewrite <- Hbase. apply _request_respond. rewrite Hbase.
  apply (serve_set_hash app u h).
Qed.

Lemma request_backup (c u : string) (w : World) :
  apiBaseUrl w = origin →
  _request "/api/backup"
    (post_json (JSON_stringify (JObject
       [("encryptedData", JString c); ("username", JString u)]))) w
  = (Ok (JObject [("ipfsHash", JString (content_pointer c))]),
     record_event
       (EvFetch (origin +:+ "/api/backup")
          (post_json (JSON_stringify (JObject
             [("encryptedData", JString c); ("username", JString u)]))))
       (set_remote {| directory := directory (remote w);
                      blobs := <[content_pointer c := c]> (blobs (remote w)) |} w)).
Proof.
  intros Hbase. rewrite <- Hbase. apply _request_respond. rewrite Hbase.
  apply (serve_backup c u).
Qed.

Lemma request_get_hash (app u : string) (w : World) :
  apiBaseUrl w = origin → url_safe app = true → url_safe u = true →
  _request ("/api/get-hash?app_id=" +:+ app +:+ "&username=" +:+ u) no_options w
  = (Ok (JObject [("ipfsHash", default JNull (directory (remote w) !! (app, u)))]),
     record_event
       (EvFetch
          (origin +:+ ("/api/get-hash?app_id=" +:+ app +:+ "&username=" +:+ u))
          no_options)
       (set_remote (remote w) w)).
Proof.
  intros Hbase Happ Hu. rewrite <- Hbase. apply _request_respond.
  rewrite Hbase. by apply serve_get_hash.
Qed.

Lemma request_restore (h c : string) (w : World) :
  apiBaseUrl w = origin → url_safe h = true → blobs (remote w) !! h = Some c →
  _request ("/api/restore?hash=" +:+ h) no_options w
  = (Ok (JObject [("kaironBackup", JString c)]),
     record_event (EvFetch (origin +:+ ("/api/restore?hash=" +:+ h)) no_options)
       (set_remote (remote w) w)).
Proof.
  intros Hbase Hh Hblob. rewrite <- Hbase. apply _request_respond.
  rewrite Hbase, serve_restore by done. unfold restore.
  cbn [param]. rewrite String.eqb_refl. cbv [mbind option_bind]. by rewrite Hblob.
Qed.

(** **** Pointers and blobs *)

Lemma hex_digit_unreserved (n : N) :
  (n < 16)%N → unreserved (Bytes.hex_digit n) = true.
Proof.
  intros Hn.
  assert (n ∈ List.map N.of_nat (seq 0 16)) as Hin.
  { apply list_elem_of_fmap. exists (N.to_nat n). split; [lia|].
    apply elem_of_seq. lia. }
  cbn [seq List.map] in Hin.
  repeat (apply elem_of_cons in Hin as [->|Hin]; [reflexivity|]).
  by apply elem_of_nil in Hin.
Qed.

Lemma hex_safe (s : string) :
  url_safe (Bytes.hex (Bytes.bytes_of_string s)) = true.
Proof.
  induction s as [|c s IH]; [done|].
  unfold Bytes.hex, Bytes.bytes_of_string in *.
  cbn [list_ascii_of_string List.map flat_map app string_of_list_ascii url_safe].
  assert (N_of_ascii c < 256)%N as Hc by apply N_ascii_bounded.
  rewrite !hex_digit_unreserved, IH; [done| |].
  - apply N.mod_lt. lia.
  - apply N.Div0.div_lt_upper_bound. lia.
Qed.

(** A content pointer is made of unreserved characters. *)
Lemma content_pointer_safe (c : string) : url_safe (content_pointer c) = true.
Proof.
  unfold content_pointer. rewrite !append_cons, append_nil. cbn [url_safe].
  by rewrite hex_safe.
Qed.

Lemma base64_nonempty (b : Bytes.byte) (l : list Bytes.byte) :
  ∃ c s, Base64.stringify (b :: l) = String c s.
Proof.
  unfold Base64.stringify, Bytes.pieces.
  cbn [List.length Bytes.chunks flat_map].
  unfold Base64.encode_group at 1. cbn [List.map].
  destruct (List.length (take 3 (b :: l)));
    cbn [take app string_of_list_ascii]; eauto.
Qed.

Lemma openssl_nonempty (c : OpenSSL.CipherParams) :
  ∃ x s, OpenSSL.stringify c = String x s.
Proof.
  unfold OpenSSL.stringify.
  change OpenSSL.magic with [83; 97; 108; 116; 101; 100; 95; 95]%N.
  cbn [app]. apply base64_nonempty.
Qed.

(** A blob is never the empty string: it starts with the magic word. *)
Lemma encryptData_nonempty (data : json) (key : string) (pool : Entropy) :
  truthy (JString (encryptData data key pool).1) = true.
Proof.
  unfold encryptData. cbn [AES_encrypt cryptojs CipherParams_toString].
  destruct (draw 8 pool) as [salt pool']. cbn [fst].
  destruct (openssl_nonempty (OpenSSL.encrypt (JSON_stringify data) key salt))
    as (x & s & ->).
  reflexivity.
Qed.

(** **** The two calls, each on its own *)

(** One step of a run: the next bind, then the reduction of its match. *)
Ltac next Hrun := rewrite bind_run in Hrun.
Ltac reduce Hrun := cbv beta iota in Hrun.

Lemma content_pointer_truthy (c : string) :
  truthy (JString (content_pointer c)) = true.
Proof. reflexivity. Qed.

(** A sign-up with a fresh username succeeds, and leaves the blob in the
    store and its pointer in the directory. *)
Lemma signUp_fresh_user (u p key blob : string) (w : World) (e1 e2 : Entropy) :
  apiBaseUrl w = origin → u ≠ "" → p ≠ "" → users w !! u = None →
  generateRecoveryKey (entropy w) = (key, e1) →
  encryptData initialData key e1 = (blob, e2) →
  let run := signUp u p w in
  run.1 = Ok key
  ∧ apiBaseUrl run.2 = origin ∧ appId run.2 = appId w ∧ entropy run.2 = e2
  ∧ directory (remote run.2) !! (appId w, u)
    = Some (JString (content_pointer blob))
  ∧ blobs (remote run.2) !! content_pointer blob = Some blob.
Proof.
  intros Hbase Hname Hpass Hfresh Hkey Henc.
  destruct (signUp u p w) as [r w'] eqn:Hrun. cbn [fst snd].
  unfold signUp in Hrun.
  apply String.eqb_neq in Hname, Hpass. rewrite Hname, Hpass in Hrun.
  cbn [orb] in Hrun.
  next Hrun. rewrite db_users_get_run, Hfresh in Hrun. reduce Hrun.
  next Hrun. rewrite (random_run _ w _ _ Hkey) in Hrun. reduce Hrun.
  next Hrun. rewrite this_run in Hrun. reduce Hrun.
  next Hrun. rewrite request_set_hash in Hrun by exact Hbase. reduce Hrun.
  next Hrun. erewrite random_run in Hrun by exact Henc. reduce Hrun.
  next Hrun. rewrite request_backup in Hrun by exact Hbase. reduce Hrun.
  next Hrun. rewrite read_first in Hrun. reduce Hrun.
  next Hrun. rewrite require_run in Hrun. reduce Hrun.
  rewrite content_pointer_truthy in Hrun. reduce Hrun.
  next Hrun. rewrite this_run in Hrun. reduce Hrun.
  next Hrun. rewrite request_set_hash in Hrun by exact Hbase. reduce Hrun.
  next Hrun. rewrite db_users_add_fresh in Hrun by exact Hfresh.
  reduce Hrun. rewrite ret_run in Hrun.
  injection Hrun as <- <-. cbn.
  split_and!; try done; apply lookup_insert_eq.
Qed.

(** A restore returns what the registered blob deciphers to. *)
Lemma restoreData_stored (u key pointer blob : string) (d : json) (w : World)
  (e' : Entropy) :
  apiBaseUrl w = origin → url_safe (appId w) = true → url_safe u = true →
  directory (remote w) !! (appId w, u) = Some (JString pointer) →
  truthy (JString pointer) = true → url_safe pointer = true →
  blobs (remote w) !! pointer = Some blob → truthy (JString blob) = true →
  decryptData (JString blob) key (entropy w) = (d, e') → d ≠ JNull →
  (restoreData u key w).1 = Ok d.
Proof.
  intros Hbase Happ Hu Hdir Hpointer Hsafe Hblob Hfull Hdec Hd.
  destruct (restoreData u key w) as [r w'] eqn:Hrun. cbn [fst].
  unfold restoreData in Hrun.
  next Hrun. rewrite this_run in Hrun. reduce Hrun.
  next Hrun. rewrite request_get_hash in Hrun by assumption. reduce Hrun.
  next Hrun. rewrite read_first, Hdir in Hrun. reduce Hrun.
  cbn [default from_option id] in Hrun.
  next Hrun. rewrite require_run in Hrun. reduce Hrun.
  rewrite Hpointer in Hrun. reduce Hrun.
  next Hrun. rewrite ToString_string in Hrun.
  rewrite (request_restore _ blob) in Hrun by assumption. reduce Hrun.
  next Hrun. unfold backup_blob in Hrun. cbn [get_prop assoc] in Hrun.
  rewrite String.eqb_refl in Hrun. cbn [truthy_value] in Hrun.
  rewrite Hfull, lift_value in Hrun. reduce Hrun.
  next Hrun. rewrite require_run in Hrun. reduce Hrun.
  rewrite Hfull in Hrun. reduce Hrun.
  next Hrun. erewrite random_run in Hrun by exact Hdec. reduce Hrun.
  destruct d; try done; next Hrun; rewrite db_users_put_run in Hrun;
    reduce Hrun; rewrite ret_run in Hrun; by injection Hrun as <- _.
Qed.

(** With an application id and a username of unreserved characters, on a
    device that talks to the reference server and has no row for the
    username, and with entropy on which the cipher gives the initial
    payload back: [signUp] returns a recovery key, and [restoreData] with
    that key, on the state the sign-up left, returns the initial payload. *)
Theorem restoreData_after_signUp_safe (u p : string) (w : World) :
  apiBaseUrl w = origin → url_safe (appId w) = true → url_safe u = true →
  u ≠ "" → p ≠ "" → users w !! u = None → roundtrips (entropy w) →
  ∃ key, (signUp u p w).1 = Ok key
         ∧ (restoreData u key (signUp u p w).2).1 = Ok initialData.
Proof.
  intros Hbase Happ Hu Hname Hpass Hfresh Hround. unfold roundtrips in Hround.
  destruct (generateRecoveryKey (entropy w)) as [key e1] eqn:Hkey.
  pose proof (encryptData_nonempty initialData key e1) as Hfull.
  destruct (encryptData initialData key e1) as [blob e2] eqn:Henc.
  destruct (decryptData (JString blob) key e2) as [d e3] eqn:Hdec.
  cbn [fst] in Hround, Hfull. subst d.
  pose proof (signUp_fresh_user u p key blob w e1 e2
                Hbase Hname Hpass Hfresh Hkey Henc) as Hup.
  cbv zeta in Hup. destruct (signUp u p w) as [r w']. cbn [fst snd] in *.
  destruct Hup as (-> & Hbase' & Hid & Hpool & Hdir & Hblob).
  exists key. split; [reflexivity|].
  rewrite <- Hid in Happ, Hdir. rewrite <- Hpool in Hdec.
  apply (restoreData_stored u key (content_pointer blob) blob initialData w' e3);
    auto using content_pointer_truthy, content_pointer_safe.
Qed.

Lemma restoreData_after_signUp_safe_witness :
  ∃ key, (signUp "alice" "pw1" (fresh "app")).1 = Ok key
         ∧ (restoreData "alice" key (signUp "alice" "pw1" (fresh "app")).2).1
           = Ok initialData.
Proof.
  apply restoreData_after_signUp_safe;
    [reflexivity | reflexivity | reflexivity | discriminate | discriminate
    | reflexivity | vm_compute; reflexivity].
Defined.

(** *** Backup, then restore *)

(** A backup in a session succeeds, and leaves the blob in the store and its
    pointer in the directory. *)
Lemma backupData_logged_in (P : json) (u blob : string) (row : User) (w : World)
  (e1 : Entropy) :
  apiBaseUrl w = origin → currentUser w = Some u → u ≠ "" →
  users w !! u = Some row →
  encryptData P (recoveryKey row) (entropy w) = (blob, e1) →
  let run := backupData P w in
  run.1 = Ok (JString (content_pointer blob))
  ∧ apiBaseUrl run.2 = origin ∧ appId run.2 = appId w ∧ entropy run.2 = e1
  ∧ directory (remote run.2) !! (appId w, u)
    = Some (JString (content_pointer blob))
  ∧ blobs (remote run.2) !! content_pointer blob = Some blob.
Proof.
  intros Hbase Hsession Hname Hrow Henc.
  destruct (backupData P w) as [r w'] eqn:Hrun. cbn [fst snd].
  unfold backupData in Hrun.
  next Hrun. rewrite this_run, Hsession in Hrun. reduce Hrun.
  apply String.eqb_neq in Hname. cbn [logged_in] in Hrun.
  rewrite Hname in Hrun. reduce Hrun.
  next Hrun. rewrite db_users_get_run, Hrow in Hrun. reduce Hrun.
  next Hrun. rewrite (random_run _ w _ _ Henc) in Hrun. reduce Hrun.
  next Hrun. rewrite request_backup in Hrun by exact Hbase. reduce Hrun.
  next Hrun. rewrite read_first in Hrun. reduce Hrun.
  next Hrun. rewrite require_run in Hrun. reduce Hrun.
  rewrite content_pointer_truthy in Hrun. reduce Hrun.
  next Hrun. rewrite this_run in Hrun. reduce Hrun.
  next Hrun. rewrite request_set_hash in Hrun by exact Hbase. reduce Hrun.
  next Hrun. rewrite db_users_update_run in Hrun. reduce Hrun.
  rewrite ret_run in Hrun.
  injection Hrun as <- <-. cbn.
  split_and!; try done; apply lookup_insert_eq.
Qed.

(** With an application id and a username of unreserved characters, on a
    device that talks to the reference server, in a session of a user with
    a local row: when the cipher gives the payload back under the row's
    recovery key and the payload is not [null], [backupData] returns a
    pointer and [restoreData] with that key, on the state the backup left,
    returns the payload. *)
Theorem restoreData_after_backupData (P : json) (u : string) (row : User)
  (w : World) :
  apiBaseUrl w = origin → url_safe (appId w) = true → url_safe u = true →
  currentUser w = Some u → u ≠ "" → users w !! u = Some row →
  P ≠ JNull →
  (let '(blob, e1) := encryptData P (recoveryKey row) (entropy w) in
   (decryptData (JString blob) (recoveryKey row) e1).1 = P) →
  ∃ pointer,
    (backupData P w).1 = Ok pointer
    ∧ (restoreData u (recoveryKey row) (backupData P w).2).1 = Ok P.
Proof.
  intros Hbase Happ Hu Hsession Hname Hrow HP Hround.
  pose proof (encryptData_nonempty P (recoveryKey row) (entropy w)) as Hfull.
  destruct (encryptData P (recoveryKey row) (entropy w)) as [blob e1] eqn:Henc.
  destruct (decryptData (JString blob) (recoveryKey row) e1) as [d e2] eqn:Hdec.
  cbn [fst] in Hround, Hfull. subst d.
  pose proof (backupData_logged_in P u blob row w e1
                Hbase Hsession Hname Hrow Henc) as Hup.
  cbv zeta in Hup. destruct (backupData P w) as [r w']. cbn [fst snd] in *.
  destruct Hup as (-> & Hbase' & Hid & Hpool & Hdir & Hblob).
  eexists. split; [reflexivity|].
  rewrite <- Hid in Happ, Hdir. rewrite <- Hpool in Hdec.
  apply (restoreData_stored u (recoveryKey row) (content_pointer blob) blob P
           w' e2);
    auto using content_pointer_truthy, content_pointer_safe.
Qed.

Lemma restoreData_after_backupData_witness :
  ∃ pointer,
    (backupData (JObject [("notes", JArray [JString "a"; JNumber 7%Z])]) device).1
    = Ok pointer
    ∧ (restoreData "alice" (recoveryKey alice_row)
         (backupData (JObject [("notes", JArray [JString "a"; JNumber 7%Z])])
            device).2).1
      = Ok (JObject [("notes", JArray [JString "a"; JNumber 7%Z])]).
Proof.
  apply (restoreData_after_backupData _ "alice" alice_row device);
    [reflexivity | reflexivity | reflexivity | reflexivity | discriminate
    | reflexivity | discriminate | vm_compute; reflexivity].
Defined.

(** A [null] payload is stored, and then refused on the way back: under the
    right key [restoreData] reports the error of a wrong one, since
    [decryptData] answers [null] for both. *)
Lemma restoreData_after_backupData_null :
  (∃ pointer, (backupData JNull device).1 = Ok pointer)
  ∧ (restoreData "alice" (recoveryKey alice_row) (backupData JNull device).2).1
    = Throw InvalidRecoveryKey.
Proof. split; [eexists|]; vm_compute; reflexivity. Qed.

(** *** The further properties, on concrete inputs *)

Lemma backupData_logged_out_witness :
  logged_in (currentUser (fresh "app")) = None
  ∧ backupData initialData (fresh "app") = (Throw NotLoggedIn, fresh "app").
Proof.
  assert (logged_in (currentUser (fresh "app")) = None) as Hout by reflexivity.
  split; [done|].
  exact (backupData_logged_out initialData (fresh "app") Hout).
Defined.

Lemma login_success_sets_session_witness :
  (login "alice" "pw1" (set_currentUser None device)).1 = Ok true
  ∧ currentUser (login "alice" "pw1" (set_currentUser None device)).2
    = Some "alice".
Proof.
  assert ((login "alice" "pw1" (set_currentUser None device)).1 = Ok true)
    as Hok by (vm_compute; reflexivity).
  split; [done|].
  by rewrite (login_success_sets_session "alice" "pw1" _ Hok).
Defined.

Lemma login_after_signUp_witness :
  (signUp "alice" "pw1" (fresh "app")).1 = Ok "000102030405060708090a0b0c0d0e0f"
  ∧ (login "alice" "pw1" (signUp "alice" "pw1" (fresh "app")).2).1 = Ok true.
Proof.
  assert ((signUp "alice" "pw1" (fresh "app")).1
          = Ok "000102030405060708090a0b0c0d0e0f") as Hok
    by (vm_compute; reflexivity).
  split; [done|].
  exact (login_after_signUp "alice" "pw1" (fresh "app") _ Hok).
Defined.

Lemma lookup_url_collision_witness :
  ("app", "a&username=b") ≠ ("app&username=a", "b")
  ∧ let lookup :=
      EvFetch
        (apiBaseUrl (fresh "app")
         +:+ "/api/get-hash?app_id=app&username=a&username=b")
        no_options in
    (log (fresh "app") ++ [lookup])%list
      `prefix_of` log (restoreData "a&username=b" "k1" (fresh "app")).2
    ∧ (log (fresh "app&username=a") ++ [lookup])%list
        `prefix_of` log (restoreData "b" "k2" (fresh "app&username=a")).2.
Proof.
  split; [discriminate|].
  exact (lookup_url_collision (fresh "app") (fresh "app&username=a") "k1" "k2"
           eq_refl eq_refl eq_refl).
Defined.

(** *** The properties of the calls, on concrete inputs *)

Example enableAutoBackup_runs :
  enableAutoBackup None willing
  = (Returned,
     {| serviceWorker := serviceWorker willing;
        sync_requests := [{| tag := "portid-auto-backup";
                          minInterval := 43200000%Z |}];
        console := ["PortID auto-backup has been registered."] |})
  ∧ (enableAutoBackup (Some 1%Z) unwilling).1
    = Thrown (PortIDError "Auto-backup registration failed: Permission denied.")
  ∧ sync_requests (enableAutoBackup (Some 1%Z) unwilling).2
    = [{| tag := "portid-auto-backup"; minInterval := 3600000%Z |}]
  ∧ enableAutoBackup None workerless = (Pending, workerless).
Proof. split_and!; reflexivity. Qed.

Lemma perform_all_session_has_row_witness :
  session_has_row (fresh "app")
  ∧ session_has_row (perform_all session (fresh "app"))
  ∧ ∀ data,
      (backupData data (perform_all session (fresh "app"))).1 ≠ Throw MissingRow.
Proof.
  assert (session_has_row (fresh "app")) as Hfresh by (intros c Hc; discriminate).
  split; [done|]. exact (perform_all_session_has_row session (fresh "app") Hfresh).
Defined.

Lemma backupData_errors_witness :
  (backupData initialData (fresh "app")).1 = Throw NotLoggedIn
  ∧ (NotLoggedIn = NotLoggedIn ∨ NotLoggedIn = MissingRow
     ∨ NotLoggedIn = BackupUnanswered
     ∨ (∃ cause, NotLoggedIn = NetworkOrApiError cause) ∨ unwrapped NotLoggedIn).
Proof.
  assert ((backupData initialData (fresh "app")).1 = Throw NotLoggedIn) as Hthrow
    by reflexivity.
  split; [done|].
  exact (backupData_errors initialData (fresh "app") NotLoggedIn Hthrow).
Defined.

Lemma signUp_errors_witness :
  (signUp "alice" "pw1" device).1 = Throw DuplicateUser
  ∧ (DuplicateUser = MissingCredentials ∨ DuplicateUser = DuplicateUser
     ∨ DuplicateUser = BackupFailed
     ∨ (∃ cause, DuplicateUser = NetworkOrApiError cause)
     ∨ unwrapped DuplicateUser)
  ∧ ∀ message, DuplicateUser ≠ ConstraintError message.
Proof.
  assert ((signUp "alice" "pw1" device).1 = Throw DuplicateUser) as Hthrow
    by (vm_compute; reflexivity).
  split; [done|].
  exact (signUp_errors "alice" "pw1" device DuplicateUser Hthrow).
Defined.

Lemma signUp_password_stays_local_witness :
  "pw1" ≠ "" ∧ "another password" ≠ ""
  ∧ same_outcome (signUp "alice" "pw1" (fresh "app"))
                 (signUp "alice" "another password" (fresh "app")).
Proof.
  assert ("pw1" ≠ "") as H1 by discriminate.
  assert ("another password" ≠ "") as H2 by discriminate.
  split_and!; [done..|].
  exact (signUp_password_stays_local "alice" "pw1" "another password"
           (fresh "app") H1 H2).
Defined.

Lemma restored_user_never_logs_in_witness :
  (restoreData "alice" (key_of "alice" "pw1") (signed_up "alice" "pw1")).1
  = Ok initialData
  ∧ (login "alice" "pw1" (signed_up "alice" "pw1")).1 = Ok true
  ∧ (login "alice" "pw1"
       (perform_all [CallSignUp "alice" "pw1"; CallLogout]
          (restoreData "alice" (key_of "alice" "pw1")
             (signed_up "alice" "pw1")).2)).1
    = Ok false.
Proof.
  assert ((restoreData "alice" (key_of "alice" "pw1")
             (signed_up "alice" "pw1")).1 = Ok initialData) as Hok
    by (vm_compute; reflexivity).
  split_and!; [done|vm_compute; reflexivity|].
  exact (restored_user_never_logs_in "alice" (key_of "alice" "pw1")
           (signed_up "alice" "pw1") initialData
           [CallSignUp "alice" "pw1"; CallLogout] "pw1" Hok).
Defined.

